(** * Persona migration: scripts/migrate_personas.py

    A shallow embedding of the migration script that turns a persona
    directory (PERSONA.md + AI_START_HERE.md) into a SKILL.md with YAML
    frontmatter, and the properties of it that the specification states.

    Layout:
    - [PyStr]      Python [str] values and the string methods the script calls;
    - [Re]         the fragment of Python's [re] the four patterns need,
                   as a backtracking matcher;
    - [PyDict]     insertion-ordered dictionaries of YAML-serialisable values;
    - [Extractor]  [extract_metadata_from_persona];
    - [FS]         the file tree and the [pathlib] operations used;
    - [Migrate]    [create_skill_md] and [main];
    - the theorems. *)

From Stdlib Require Import String Ascii List NArith Arith Bool Lia.
From Stdlib Require Import Permutation Sorted.
Import ListNotations.

Set Implicit Arguments.
Set Warnings "-register-all".

(* ------------------------------------------------------------------ *)
(** ** Python strings *)

Module PyStr.

(** A Python [str] is a sequence of Unicode code points. *)
Definition char := N.
Definition pystr := list char.

(** ASCII literals of the source, written as Rocq strings. *)
Definition py (s : string) : pystr :=
  map N_of_ascii (list_ascii_of_string s).

Definition nl : char := 10%N.
Definition ch (a : ascii) : char := N_of_ascii a.

Definition char_in (lo hi c : char) : bool := (N.leb lo c && N.leb c hi)%bool.

(** [str.isspace] on one character, which is also what [str.strip()]
    removes and what [\s] matches in a [str] pattern. *)
Definition is_space (c : char) : bool :=
  (char_in 9 13 c || char_in 28 32 c || N.eqb c 133 || N.eqb c 160
   || N.eqb c 5760 || char_in 8192 8202 c || N.eqb c 8232 || N.eqb c 8233
   || N.eqb c 8239 || N.eqb c 8287 || N.eqb c 12288)%N%bool.

Fixpoint pystr_eqb (a b : pystr) : bool :=
  match a, b with
  | [], [] => true
  | x :: a', y :: b' => N.eqb x y && pystr_eqb a' b'
  | _, _ => false
  end.

Fixpoint lstrip_while (p : char -> bool) (s : pystr) : pystr :=
  match s with
  | c :: s' => if p c then lstrip_while p s' else s
  | [] => []
  end.

Definition rstrip_while (p : char -> bool) (s : pystr) : pystr :=
  rev (lstrip_while p (rev s)).

(** [s.strip()] *)
Definition strip (s : pystr) : pystr :=
  rstrip_while is_space (lstrip_while is_space s).

(** [s.lstrip(c)] for a one-character argument. *)
Definition lstrip_char (c : char) (s : pystr) : pystr :=
  lstrip_while (N.eqb c) s.

(** [s.startswith(c)] for a one-character argument. *)
Definition startswith (c : char) (s : pystr) : bool :=
  match s with
  | x :: _ => N.eqb x c
  | [] => false
  end.

(** [s.split(sep)] for a one-character separator: never the empty list. *)
Fixpoint split (sep : char) (s : pystr) : list pystr :=
  match s with
  | [] => [[]]
  | c :: s' =>
      if N.eqb c sep then [] :: split sep s'
      else match split sep s' with
           | p :: ps => (c :: p) :: ps
           | [] => [[c]]
           end
  end.

(** [sep.join(parts)] *)
Fixpoint join (sep : pystr) (parts : list pystr) : pystr :=
  match parts with
  | [] => []
  | [p] => p
  | p :: ps => p ++ sep ++ join sep ps
  end.

(** [s[:n]] *)
Definition slice_to (n : nat) (s : pystr) : pystr := firstn n s.

(** Truth value of a string: non-empty. *)
Definition nonempty (s : pystr) : bool :=
  match s with [] => false | _ :: _ => true end.

(** [<] on strings: lexicographic on code points. *)
Fixpoint pystr_ltb (a b : pystr) : bool :=
  match a, b with
  | _, [] => false
  | [], _ :: _ => true
  | x :: a', y :: b' =>
      if N.ltb x y then true
      else if N.eqb x y then pystr_ltb a' b' else false
  end.

Lemma pystr_eqb_eq a b : pystr_eqb a b = true <-> a = b.
Proof.
  revert b; induction a as [|x a IH]; intros [|y b]; simpl;
    try (split; [discriminate | discriminate]); try tauto.
  rewrite andb_true_iff, N.eqb_eq, IH.
  split; [intros [-> ->]; reflexivity | intros H; inversion H; auto].
Qed.

Lemma pystr_eqb_refl a : pystr_eqb a a = true.
Proof. apply pystr_eqb_eq; reflexivity. Qed.

Lemma pystr_eqb_neq a b : pystr_eqb a b = false <-> a <> b.
Proof.
  split.
  - intros H E. apply pystr_eqb_eq in E. congruence.
  - intros H. destruct (pystr_eqb a b) eqn:E; [|reflexivity].
    apply pystr_eqb_eq in E. contradiction.
Qed.

End PyStr.
Import PyStr.

(* ------------------------------------------------------------------ *)
(** ** Regular expressions

    The four patterns of the script use literals, character sets, [.],
    [^], [$], greedy and lazy repetition, [?] and one capturing group.
    The matcher below is a backtracking matcher in continuation-passing
    style that tries alternatives in the order [re] does, so the first
    success is the match [re] reports. *)

Module Re.

Record flags := Flags { IGNORECASE : bool; MULTILINE : bool; DOTALL : bool }.

Definition no_flags := Flags false false false.

Inductive set_item :=
| SLit (c : char)              (* a character *)
| SRange (lo hi : char)        (* lo-hi *)
| SSpace.                      (* \s *)

Inductive regex :=
| Eps                                   (* the empty pattern *)
| Lit (c : char)                        (* a literal character *)
| OneOf (negate : bool) (set : list set_item)  (* [...] and [^...] *)
| Any                                   (* . *)
| Bol                                   (* ^ *)
| Eol                                   (* $ *)
| Cat (r1 r2 : regex)
| Star (greedy : bool) (r : regex)      (* r* and r*? *)
| Opt (r : regex)                       (* r? *)
| Group1 (r : regex).                   (* ( r ), group 1 *)

(** [r+] *)
Definition Plus (r : regex) : regex := Cat r (Star true r).

Fixpoint seq (rs : list regex) : regex :=
  match rs with
  | [] => Eps
  | [r] => r
  | r :: rs' => Cat r (seq rs')
  end.

Definition lits (s : string) : regex := seq (map Lit (py s)).

(** Simple lower-casing as [re] applies it to a subject character under
    IGNORECASE.  Only the characters whose image is an ASCII letter are
    mapped (A-Z, U+0130 and the Kelvin sign U+212A); every other
    character is left alone.  All pattern characters of the script are
    ASCII, and for those comparisons this agrees with the full table. *)
Definition sre_lower (c : char) : char :=
  if char_in 65%N 90%N c then (c + 32)%N
  else if N.eqb c 304%N then 105%N
  else if N.eqb c 8490%N then 107%N
  else c.

(** The extra case-insensitive equivalents of a lower-case ASCII letter:
    i ~ U+0131 (dotless i), s ~ U+017F (long s). *)
Definition fixes (lo : char) : list char :=
  if N.eqb lo 105%N then [305%N]
  else if N.eqb lo 115%N then [383%N]
  else [].

Definition ci_equiv (p lc : char) : bool :=
  let lo := sre_lower p in
  (N.eqb lc lo || existsb (N.eqb lc) (fixes lo))%bool.

Definition lit_match (fl : flags) (p c : char) : bool :=
  if IGNORECASE fl then ci_equiv p (sre_lower c) else N.eqb c p.

Fixpoint char_range (lo : char) (n : nat) : list char :=
  match n with
  | 0 => []
  | S n' => lo :: char_range (N.succ lo) n'
  end.

Definition range_chars (lo hi : char) : list char :=
  char_range lo (N.to_nat (N.succ hi - lo)).

Definition item_match (fl : flags) (it : set_item) (c : char) : bool :=
  match it with
  | SLit p => lit_match fl p c
  | SRange lo hi =>
      if IGNORECASE fl
      then existsb (fun p => ci_equiv p (sre_lower c)) (range_chars lo hi)
      else char_in lo hi c
  | SSpace => is_space c
  end.

Definition set_match (fl : flags) (negate : bool) (set : list set_item)
           (c : char) : bool :=
  xorb negate (existsb (fun it => item_match fl it c) set).

Definition any_match (fl : flags) (c : char) : bool :=
  if DOTALL fl then true else negb (N.eqb c nl).

(** [bef] holds the characters before the position, nearest first. *)
Definition at_beginning (fl : flags) (bef : pystr) : bool :=
  match bef with
  | [] => true
  | c :: _ => (MULTILINE fl && N.eqb c nl)%bool
  end.

Definition at_end (fl : flags) (aft : pystr) : bool :=
  match aft with
  | [] => true
  | c :: rest =>
      (N.eqb c nl && (MULTILINE fl || match rest with [] => true | _ => false end))%bool
  end.

Section Matcher.
Variable fl : flags.
Variable R : Type.

(** A continuation receives the text before and after the position
    reached and the text of group 1, if it has been closed. *)
Definition cont := pystr -> pystr -> option pystr -> option R.

Definition one_char (p : char -> bool) (bef aft : pystr)
           (g : option pystr) (k : cont) : option R :=
  match aft with
  | c :: aft' => if p c then k (c :: bef) aft' g else None
  | [] => None
  end.

(** The iterations of [r*] and [r*?], [body] matching [r] once.  An
    iteration has to consume something, so the length of the text left
    bounds their number. *)
Fixpoint star_loop (greedy : bool)
         (body : pystr -> pystr -> option pystr -> cont -> option R)
         (k : cont) (n : nat) (bef aft : pystr) (g : option pystr)
         {struct n} : option R :=
  match n with
  | 0 => k bef aft g
  | S n' =>
      let again := fun b a g' =>
                     if length a <? length aft
                     then star_loop greedy body k n' b a g'
                     else None in
      if greedy then
        match body bef aft g again with
        | Some x => Some x
        | None => k bef aft g
        end
      else
        match k bef aft g with
        | Some x => Some x
        | None => body bef aft g again
        end
  end.

Fixpoint rmatch (r : regex) (bef aft : pystr) (g : option pystr)
         (k : cont) {struct r} : option R :=
  match r with
  | Eps => k bef aft g
  | Lit p => one_char (lit_match fl p) bef aft g k
  | OneOf negate set => one_char (set_match fl negate set) bef aft g k
  | Any => one_char (any_match fl) bef aft g k
  | Bol => if at_beginning fl bef then k bef aft g else None
  | Eol => if at_end fl aft then k bef aft g else None
  | Cat r1 r2 => rmatch r1 bef aft g (fun b a g' => rmatch r2 b a g' k)
  | Opt r1 =>
      match rmatch r1 bef aft g k with
      | Some x => Some x
      | None => k bef aft g
      end
  | Star greedy r1 =>
      star_loop greedy (rmatch r1) k (S (length aft)) bef aft g
  | Group1 r1 =>
      rmatch r1 bef aft g
        (fun b a _ => k b a (Some (firstn (length aft - length a) aft)))
  end.
End Matcher.

(** A match: the text before its end (nearest first), the text after
    it, and group 1. *)
Record match_obj := Match { m_before : pystr; m_after : pystr;
                            m_group1 : option pystr }.

Definition match_at (fl : flags) (r : regex) (bef aft : pystr)
  : option match_obj :=
  rmatch fl r bef aft None (fun b a g => Some (Match b a g)).

Fixpoint search_from (fl : flags) (r : regex) (bef aft : pystr)
  : option match_obj :=
  match match_at fl r bef aft with
  | Some m => Some m
  | None =>
      match aft with
      | [] => None
      | c :: aft' => search_from fl r (c :: bef) aft'
      end
  end.

(** [re.search(r, s, flags)] *)
Definition search (fl : flags) (r : regex) (s : pystr) : option match_obj :=
  search_from fl r [] s.

(** [m.group(1)] of a pattern whose group 1 takes part in every match. *)
Definition group1 (m : match_obj) : pystr :=
  match m_group1 m with Some g => g | None => [] end.

(** [re.sub(r, '', s, flags)]: every non-overlapping match, leftmost
    first, is deleted.  With the empty replacement an empty match
    changes nothing, so it is passed over like a failure. *)
Fixpoint sub_from (fuel : nat) (fl : flags) (r : regex) (bef aft : pystr)
  : pystr :=
  match fuel with
  | 0 => aft
  | S fuel' =>
      let skip :=
        match aft with
        | [] => []
        | c :: aft' => c :: sub_from fuel' fl r (c :: bef) aft'
        end in
      match match_at fl r bef aft with
      | Some m =>
          if length (m_after m) <? length aft
          then sub_from fuel' fl r (m_before m) (m_after m)
          else skip
      | None => skip
      end
  end.

Definition sub_empty (fl : flags) (r : regex) (s : pystr) : pystr :=
  sub_from (S (length s)) fl r [] s.

End Re.
Import Re.

(* ------------------------------------------------------------------ *)
(** ** Dictionaries

    The metadata record is a Python [dict] that is handed to [yaml.dump]
    with [sort_keys=False]: insertion order is part of the value, so a
    dictionary is an association list in insertion order.  Its values are
    strings, lists of strings and nested dictionaries. *)

Module PyDict.

Inductive pyval :=
| PStr (s : pystr)
| PList (items : list pystr)
| PDict (d : list (pystr * pyval)).

Definition dict := list (pystr * pyval).

(** [d.get(k)] *)
Fixpoint dict_get (k : pystr) (d : dict) : option pyval :=
  match d with
  | [] => None
  | (k', v) :: d' => if pystr_eqb k' k then Some v else dict_get k d'
  end.

(** [d[k] = v]: an existing key keeps its place, a new key goes last. *)
Fixpoint dict_set (k : pystr) (v : pyval) (d : dict) : dict :=
  match d with
  | [] => [(k, v)]
  | (k', v') :: d' =>
      if pystr_eqb k' k then (k', v) :: d' else (k', v') :: dict_set k v d'
  end.

Definition keys (d : dict) : list pystr := map fst d.

(** Truth value of the result of [d.get(k)]. *)
Definition truthy (o : option pyval) : bool :=
  match o with
  | None => false
  | Some (PStr s) => nonempty s
  | Some (PList l) => match l with [] => false | _ => true end
  | Some (PDict d) => match d with [] => false | _ => true end
  end.

(** [d[k1]] when it is a dictionary. *)
Definition subdict (k1 : pystr) (d : dict) : dict :=
  match dict_get k1 d with
  | Some (PDict s) => s
  | _ => []
  end.

(** [d[k1].get(k2)] *)
Definition get_in (k1 k2 : pystr) (d : dict) : option pyval :=
  dict_get k2 (subdict k1 d).

(** [d[k1][k2] = v]: the nested dictionary is updated in place. *)
Definition set_in (k1 k2 : pystr) (v : pyval) (d : dict) : dict :=
  dict_set k1 (PDict (dict_set k2 v (subdict k1 d))) d.

Lemma dict_get_set_eq k v d : dict_get k (dict_set k v d) = Some v.
Proof.
  induction d as [|[k' v'] d IH]; simpl.
  - now rewrite pystr_eqb_refl.
  - destruct (pystr_eqb k' k) eqn:E; simpl; rewrite E; auto.
Qed.

Lemma dict_get_set_neq k k' v d :
  k <> k' -> dict_get k' (dict_set k v d) = dict_get k' d.
Proof.
  intros Hne. induction d as [|[k0 v0] d IH]; simpl.
  - apply pystr_eqb_neq in Hne. now rewrite Hne.
  - destruct (pystr_eqb k0 k) eqn:E; simpl.
    + apply pystr_eqb_eq in E; subst k0.
      apply pystr_eqb_neq in Hne. now rewrite Hne.
    + now rewrite IH.
Qed.

Lemma keys_set_present k v d :
  dict_get k d <> None -> keys (dict_set k v d) = keys d.
Proof.
  induction d as [|[k0 v0] d IH]; simpl; [congruence|].
  destruct (pystr_eqb k0 k) eqn:E; simpl; [reflexivity|].
  intros H. now rewrite IH.
Qed.

Lemma keys_set_absent k v d :
  dict_get k d = None -> keys (dict_set k v d) = keys d ++ [k].
Proof.
  induction d as [|[k0 v0] d IH]; simpl; [reflexivity|].
  destruct (pystr_eqb k0 k) eqn:E; simpl; [discriminate|].
  intros H. now rewrite IH.
Qed.

End PyDict.
Import PyDict.

(* ------------------------------------------------------------------ *)
(** ** The metadata extractor *)

Module Extractor.

(** [r'Autonomy Level[:\s]+([a-z]+)'], re.IGNORECASE *)
Definition autonomy_re : regex :=
  seq [lits "Autonomy Level";
       Plus (OneOf false [SLit (ch ":"); SSpace]);
       Group1 (Plus (OneOf false [SRange (ch "a") (ch "z")]))].
Definition autonomy_flags := Flags true false false.

(** [r'Specialties?:\s*(.+)$'], re.MULTILINE | re.IGNORECASE *)
Definition specialties_re : regex :=
  seq [lits "Specialtie"; Opt (Lit (ch "s")); Lit (ch ":");
       Star true (OneOf false [SSpace]);
       Group1 (Plus Any);
       Eol].
Definition specialties_flags := Flags true true false.

(** [str.lower()] on the characters that [[a-z]] matches under
    IGNORECASE: the ASCII letters, U+0130 (whose lower case is two code
    points), U+0131, U+017F and the Kelvin sign. *)
Definition lower_char (c : char) : pystr :=
  if char_in 65%N 90%N c then [(c + 32)%N]
  else if N.eqb c 304%N then [105%N; 775%N]
  else if N.eqb c 8490%N then [107%N]
  else [c].

Definition lower (s : pystr) : pystr := flat_map lower_char s.

(** The local variables of the line loop. *)
Record scan := Scan { metadata : dict;
                      desc_lines : list pystr;
                      in_header : bool }.

Definition has_lines (l : list pystr) : bool :=
  match l with [] => false | _ :: _ => true end.

(** The [for line in lines] loop; leaving the recursion is [break],
    recursing on the rest without a change is [continue]. *)
Fixpoint scan_lines (lines : list pystr) (st : scan) : scan :=
  match lines with
  | [] => st
  | raw :: rest =>
      let line := strip raw in
      if negb (nonempty line) then
        if has_lines (desc_lines st) then st
        else scan_lines rest st
      else if startswith (ch "#") line then
        let md :=
          if negb (truthy (get_in (py "metadata") (py "role") (metadata st)))
          then set_in (py "metadata") (py "role")
                      (PStr (strip (lstrip_char (ch "#") line)))
                      (metadata st)
          else metadata st in
        scan_lines rest (Scan md (desc_lines st) true)
      else if in_header st && nonempty line then
        scan_lines rest (Scan (metadata st) (desc_lines st ++ [line]) false)
      else if negb (in_header st) && negb (startswith (ch "#") line)
              && negb (startswith (ch "-") line) then
        scan_lines rest
                   (Scan (metadata st) (desc_lines st ++ [line]) (in_header st))
      else st
  end.

Definition extract_metadata_from_persona (content persona_name : pystr)
  : dict :=
  let metadata0 := [(py "name", PStr persona_name);
                    (py "description", PStr []);
                    (py "metadata", PDict [])] in
  let lines := split nl (strip content) in
  let st := scan_lines lines (Scan metadata0 [] true) in
  let md1 := dict_set (py "description")
               (PStr (slice_to 500 (join (py " ") (desc_lines st))))
               (metadata st) in
  let md2 :=
    match search autonomy_flags autonomy_re content with
    | Some m => set_in (py "metadata") (py "autonomy_level")
                  (PStr (lower (group1 m))) md1
    | None => md1
    end in
  match search specialties_flags specialties_re content with
  | Some m =>
      let specialties_text := group1 m in
      let specialties := map strip (split (ch ",") specialties_text) in
      set_in (py "metadata") (py "specialties") (PList specialties) md2
  | None => md2
  end.

(** [metadata['description']] of the record returned. *)
Definition description_of (md : dict) : pystr :=
  match dict_get (py "description") md with
  | Some (PStr s) => s
  | _ => []
  end.

End Extractor.
Import Extractor.

(* ------------------------------------------------------------------ *)
(** ** The file tree and the pathlib operations

    The state of the script is the tree below its working directory and
    what it has printed.  A directory lists its entries in the order the
    operating system reports them, which [iterdir] follows.  Only regular
    files and directories are modelled (no symbolic links, no
    permissions); a file holds the text that [read_text] returns. *)

Module FS.

Inductive node :=
| File (data : pystr)
| Dir (entries : list (pystr * node)).

(** A path relative to the working directory, as its components. *)
Definition path := list pystr.

(** [p / name] *)
Definition child (p : path) (name : pystr) : path := p ++ [name].

(** [p.name] *)
Definition name (p : path) : pystr := last p [].

Fixpoint entry (x : pystr) (es : list (pystr * node)) : option node :=
  match es with
  | [] => None
  | (y, n) :: es' => if pystr_eqb y x then Some n else entry x es'
  end.

Fixpoint set_entry (x : pystr) (n : node) (es : list (pystr * node))
  : list (pystr * node) :=
  match es with
  | [] => [(x, n)]
  | (y, m) :: es' =>
      if pystr_eqb y x then (y, n) :: es' else (y, m) :: set_entry x n es'
  end.

Definition del_entry (x : pystr) (es : list (pystr * node))
  : list (pystr * node) :=
  filter (fun e => negb (pystr_eqb (fst e) x)) es.

Definition alter_entry (x : pystr) (f : option node -> option node)
           (es : list (pystr * node)) : list (pystr * node) :=
  match f (entry x es) with
  | Some n => set_entry x n es
  | None => del_entry x es
  end.

Fixpoint lookup (p : path) (n : node) : option node :=
  match p with
  | [] => Some n
  | x :: p' =>
      match n with
      | Dir es =>
          match entry x es with
          | Some c => lookup p' c
          | None => None
          end
      | File _ => None
      end
  end.

(** Change what is at [p] (a non-empty path whose parent is a
    directory); anything else leaves the tree as it is. *)
Fixpoint update (p : path) (f : option node -> option node) (n : node)
  : node :=
  match p with
  | [] => n
  | x :: p' =>
      match n with
      | File _ => n
      | Dir es =>
          match p' with
          | [] => Dir (alter_entry x f es)
          | _ :: _ =>
              match entry x es with
              | Some c => Dir (set_entry x (update p' f c) es)
              | None => n
              end
          end
      end
  end.

Definition is_some {A} (o : option A) : bool :=
  match o with Some _ => true | None => false end.

Definition node_is_file (o : option node) : bool :=
  match o with Some (File _) => true | _ => false end.

Definition node_is_dir (o : option node) : bool :=
  match o with Some (Dir _) => true | _ => false end.

Inductive exn :=
| FileNotFoundError
| IsADirectoryError
| NotADirectoryError
| FileExistsError
| OSError.

(** [Path.rename] follows the platform's [os.rename]: on POSIX an
    existing regular file at the target is replaced silently; on
    Windows an existing target raises FileExistsError. *)
Inductive platform := Posix | Windows.

(** What the script prints, one constructor per [print] call. *)
Inductive msg :=
| MsgNoPersona (persona_dir : path)
| MsgCreated
| MsgMoved (file_name : pystr)
| MsgDeletedPersona
| MsgDeletedAIStart
| MsgNoRoot
| MsgFound (n : nat)
| MsgConverting (rel : path)
| MsgBlank
| MsgSummary (success_count total : nat).

Record world := World { tree : node; stdout : list msg }.

Inductive outcome (A : Type) :=
| Return (a : A)
| Raise (e : exn).
Arguments Return {A} a.
Arguments Raise {A} e.

(** A computation runs on a world and either returns or raises; what
    it did to the world before raising stays done. *)
Definition M (A : Type) := world -> outcome A * world.

Definition ret {A} (a : A) : M A := fun w => (Return a, w).

Definition raise {A} (e : exn) : M A := fun w => (Raise e, w).

Definition bind {A B} (m : M A) (k : A -> M B) : M B :=
  fun w =>
    match m w with
    | (Return a, w') => k a w'
    | (Raise e, w') => (Raise e, w')
    end.

Definition print (m : msg) : M unit :=
  fun w => (Return tt, World (tree w) (stdout w ++ [m])).

Definition get_node (p : path) : M (option node) :=
  fun w => (Return (lookup p (tree w)), w).

Definition modify (p : path) (f : option node -> option node) : M unit :=
  fun w => (Return tt, World (update p f (tree w)) (stdout w)).

End FS.
Import FS.

Declare Scope py_scope.
Delimit Scope py_scope with py_m.
Notation "x <- m ;; k" := (bind m (fun x => k))
  (at level 61, m at next level, right associativity) : py_scope.
Notation "m ;; k" := (bind m (fun _ => k))
  (at level 61, right associativity) : py_scope.
Infix "//" := child (at level 40, left associativity) : py_scope.
Open Scope py_scope.

Module Pathlib.

Definition parent (p : path) : path := removelast p.

(** [p.exists()] *)
Definition exists_ (p : path) : M bool :=
  n <- get_node p ;; ret (is_some n).

(** [p.is_file()] *)
Definition is_file (p : path) : M bool :=
  n <- get_node p ;; ret (node_is_file n).

(** [p.is_dir()] *)
Definition is_dir (p : path) : M bool :=
  n <- get_node p ;; ret (node_is_dir n).

(** [p.read_text()] *)
Definition read_text (p : path) : M pystr :=
  n <- get_node p ;;
  match n with
  | Some (File data) => ret data
  | Some (Dir _) => raise IsADirectoryError
  | None => raise FileNotFoundError
  end.

(** [p.write_text(data)]: creates or truncates. *)
Definition write_text (p : path) (data : pystr) : M unit :=
  n <- get_node p ;;
  match n with
  | Some (Dir _) => raise IsADirectoryError
  | _ =>
      d <- get_node (parent p) ;;
      match d with
      | Some (Dir _) => modify p (fun _ => Some (File data))
      | _ => raise FileNotFoundError
      end
  end.

(** [list(p.iterdir())] *)
Definition iterdir (p : path) : M (list path) :=
  n <- get_node p ;;
  match n with
  | Some (Dir es) => ret (map (fun e => p // fst e) es)
  | Some (File _) => raise NotADirectoryError
  | None => raise FileNotFoundError
  end.

(** [p.mkdir(exist_ok=True)] *)
Definition mkdir_exist_ok (p : path) : M unit :=
  n <- get_node p ;;
  match n with
  | Some (Dir _) => ret tt
  | Some (File _) => raise FileExistsError
  | None =>
      d <- get_node (parent p) ;;
      match d with
      | Some (Dir _) => modify p (fun _ => Some (Dir []))
      | _ => raise FileNotFoundError
      end
  end.

(** [p.unlink()] *)
Definition unlink (p : path) : M unit :=
  n <- get_node p ;;
  match n with
  | Some (File _) => modify p (fun _ => None)
  | Some (Dir _) => raise IsADirectoryError
  | None => raise FileNotFoundError
  end.

Fixpoint is_prefix (p q : path) : bool :=
  match p, q with
  | [], _ => true
  | x :: p', y :: q' => pystr_eqb x y && is_prefix p' q'
  | _ :: _, [] => false
  end.

Definition move (src dst : path) (n : node) : M unit :=
  modify src (fun _ => None) ;; modify dst (fun _ => Some n).

(** [src.rename(dst)].  A path is never moved below itself; moving it
    onto itself does nothing. *)
Definition rename (plat : platform) (src dst : path) : M unit :=
  s <- get_node src ;;
  match s with
  | None => raise FileNotFoundError
  | Some n =>
      d <- get_node (parent dst) ;;
      match d with
      | Some (Dir _) =>
          if is_prefix src dst then
            (if is_prefix dst src then ret tt else raise OSError)
          else
            t <- get_node dst ;;
            match t with
            | None => move src dst n
            | Some old =>
                match plat with
                | Windows => raise FileExistsError
                | Posix =>
                    match n, old with
                    | File _, File _ => move src dst n
                    | File _, Dir _ => raise IsADirectoryError
                    | Dir _, File _ => raise NotADirectoryError
                    | Dir _, Dir [] => move src dst n
                    | Dir _, Dir (_ :: _) => raise OSError
                    end
                end
            end
      | _ => raise FileNotFoundError
      end
  end.

(** [for x in xs: body(x)] *)
Fixpoint for_each {A} (xs : list A) (body : A -> M unit) : M unit :=
  match xs with
  | [] => ret tt
  | x :: xs' => body x ;; for_each xs' body
  end.

(** [[x for x in xs if keep(x)]] *)
Fixpoint filter_m {A} (keep : A -> M bool) (xs : list A) : M (list A) :=
  match xs with
  | [] => ret []
  | x :: xs' =>
      b <- keep x ;;
      rest <- filter_m keep xs' ;;
      ret (if b then x :: rest else rest)
  end.

(** [<] on paths: lexicographic on the components. *)
Fixpoint path_ltb (p q : path) : bool :=
  match p, q with
  | _, [] => false
  | [], _ :: _ => true
  | x :: p', y :: q' =>
      if pystr_ltb x y then true
      else if pystr_eqb x y then path_ltb p' q' else false
  end.

Fixpoint insert_sorted (x : path) (l : list path) : list path :=
  match l with
  | [] => [x]
  | y :: l' => if path_ltb x y then x :: l else y :: insert_sorted x l'
  end.

(** [sorted(paths)]: ascending and stable. *)
Definition sorted (l : list path) : list path :=
  fold_left (fun acc x => insert_sorted x acc) l [].

(** [x in names] *)
Definition name_in (x : pystr) (names : list pystr) : bool :=
  existsb (pystr_eqb x) names.

End Pathlib.
Import Pathlib.

(* ------------------------------------------------------------------ *)
(** ** The migration *)

Module Migrate.

(** [r'^#[^#\n]+\n+'], no flags *)
Definition first_header_re : regex :=
  seq [Bol; Lit (ch "#"); Plus (OneOf true [SLit (ch "#"); SLit nl]);
       Plus (Lit nl)].

(** [r'^---\n.*?\n---\n'], re.DOTALL *)
Definition front_matter_re : regex :=
  seq [Bol; lits "---"; Lit nl; Star false Any; Lit nl; lits "---"; Lit nl].
Definition front_matter_flags := Flags false false true.

Definition PERSONA_md := py "PERSONA.md".
Definition AI_START_HERE_md := py "AI_START_HERE.md".
Definition SKILL_md := py "SKILL.md".
Definition references := py "references".

(** The metadata record handed to [yaml.dump]: the extracted record
    with the standard fields added. *)
Definition skill_metadata (persona_content persona_name : pystr) : dict :=
  let metadata := extract_metadata_from_persona persona_content persona_name in
  let metadata := dict_set (py "license") (PStr (py "Proprietary")) metadata in
  let metadata :=
    dict_set (py "compatibility") (PStr (py "Designed for Loom")) metadata in
  let metadata := set_in (py "metadata") (py "author") (PStr (py "loom")) metadata in
  set_in (py "metadata") (py "version") (PStr (py "1.0")) metadata.

(** The quick-start part of the body: what [body_parts] receives from
    AI_START_HERE.md. *)
Definition quick_start_part (ai_start_content : pystr) : list pystr :=
  if nonempty ai_start_content then
    let ai_start_content :=
      sub_empty no_flags first_header_re (strip ai_start_content) in
    if nonempty ai_start_content
    then [py "# Quick Start" ++ [nl; nl] ++ ai_start_content]
    else []
  else [].

(** The detailed part of the body, from PERSONA.md. *)
Definition persona_part (persona_content : pystr) : list pystr :=
  if nonempty persona_content then
    [strip (sub_empty front_matter_flags front_matter_re persona_content)]
  else [].

Definition body_separator : pystr := [nl; nl] ++ py "---" ++ [nl; nl].

Definition skill_body (persona_content ai_start_content : pystr) : pystr :=
  join body_separator
       (quick_start_part ai_start_content ++ persona_part persona_content).

Definition excluded_names : list pystr :=
  [SKILL_md; PERSONA_md; AI_START_HERE_md].

Section WithYaml.

(** [yaml.dump(metadata, default_flow_style=False, sort_keys=False)]:
    PyYAML is not part of the script and is taken as given. *)
Variable yaml_dump : dict -> pystr.
Variable plat : platform.

(** [f"---\n{frontmatter}---\n\n{body}\n"] *)
Definition skill_md_text (persona_content ai_start_content persona_name : pystr)
  : pystr :=
  let frontmatter := yaml_dump (skill_metadata persona_content persona_name) in
  py "---" ++ [nl] ++ frontmatter ++ py "---" ++ [nl; nl]
     ++ skill_body persona_content ai_start_content ++ [nl].

(** The body of the loop over [additional_files]. *)
Definition move_to_references (ref_dir file : path) : M unit :=
  let dest := ref_dir // name file in
  rename plat file dest ;;
  print (MsgMoved (name file)).

Definition is_additional (f : path) : M bool :=
  isf <- is_file f ;;
  ret (isf && negb (name_in (name f) excluded_names)).

Definition create_skill_md (persona_dir : path) : M bool :=
  let persona_name := name persona_dir in
  let persona_md_path := persona_dir // PERSONA_md in
  let ai_start_path := persona_dir // AI_START_HERE_md in
  ex <- exists_ persona_md_path ;;
  if negb ex then
    print (MsgNoPersona persona_dir) ;;
    ret false
  else
    persona_content <- read_text persona_md_path ;;
    ai_ex <- exists_ ai_start_path ;;
    ai_start_content <- (if ai_ex then read_text ai_start_path else ret []) ;;
    let skill_md_content :=
      skill_md_text persona_content ai_start_content persona_name in
    let skill_md_path := persona_dir // SKILL_md in
    write_text skill_md_path skill_md_content ;;
    print MsgCreated ;;
    let ref_dir := persona_dir // references in
    children <- iterdir persona_dir ;;
    additional_files <- filter_m is_additional children ;;
    (match additional_files with
     | _ :: _ =>
         mkdir_exist_ok ref_dir ;;
         for_each additional_files (move_to_references ref_dir)
     | [] => ret tt
     end) ;;
    ex <- exists_ persona_md_path ;;
    (if ex then unlink persona_md_path ;; print MsgDeletedPersona
     else ret tt) ;;
    ex <- exists_ ai_start_path ;;
    (if ex then unlink ai_start_path ;; print MsgDeletedAIStart
     else ret tt) ;;
    ret true.

Definition root : path := [py "personas"].

(** [persona_dir.relative_to(root)] for a path below [root]. *)
Definition relative_to_root (p : path) : path := skipn (length root) p.

(** The inner loop of the scan: the directories of one organisation. *)
Fixpoint scan_org (entries : list path) (persona_dirs : list path)
  : M (list path) :=
  match entries with
  | [] => ret persona_dirs
  | persona_dir :: rest =>
      isd <- is_dir persona_dir ;;
      if isd then scan_org rest (persona_dirs ++ [persona_dir])
      else scan_org rest persona_dirs
  end.

(** The outer loop of the scan. *)
Fixpoint scan_root (entries : list path) (persona_dirs : list path)
  : M (list path) :=
  match entries with
  | [] => ret persona_dirs
  | org_dir :: rest =>
      isd <- is_dir org_dir ;;
      if isd && negb (name_in (name org_dir) [py "templates"]) then
        sub <- iterdir org_dir ;;
        persona_dirs <- scan_org sub persona_dirs ;;
        scan_root rest persona_dirs
      else scan_root rest persona_dirs
  end.

(** The conversion loop, [success_count] being its accumulator. *)
Fixpoint convert_all (persona_dirs : list path) (success_count : nat)
  : M nat :=
  match persona_dirs with
  | [] => ret success_count
  | persona_dir :: rest =>
      print (MsgConverting (relative_to_root persona_dir)) ;;
      ok <- create_skill_md persona_dir ;;
      let success_count :=
        if ok then success_count + 1 else success_count in
      print MsgBlank ;;
      convert_all rest success_count
  end.

(** [main()]; the value returned is the exit status. *)
Definition main : M nat :=
  ex <- exists_ root ;;
  if negb ex then
    print MsgNoRoot ;;
    ret 1
  else
    orgs <- iterdir root ;;
    persona_dirs <- scan_root orgs [] ;;
    print (MsgFound (length persona_dirs)) ;;
    success_count <- convert_all (sorted persona_dirs) 0 ;;
    print (MsgSummary success_count (length persona_dirs)) ;;
    ret 0.

End WithYaml.

End Migrate.
Import Migrate.

(* ------------------------------------------------------------------ *)
(** * Properties of the extractor *)

(** Scenario A of the specification. *)
Definition scenario_a : pystr :=
  py "# Data Analyst" ++ [nl] ++ py "Helps with data." ++ [nl; nl]
  ++ py "Autonomy Level: high" ++ [nl; nl]
  ++ py "Specialties: sql, python, charts" ++ [nl].

(** C4. On the text of Scenario A the extractor returns the record with
    description "Helps with data." and, under [metadata], role
    "Data Analyst", autonomy_level "high" and specialties
    [sql, python, charts], whatever the directory name. *)
Theorem extract_scenario_a (persona_name : pystr) :
  extract_metadata_from_persona scenario_a persona_name =
  [(py "name", PStr persona_name);
   (py "description", PStr (py "Helps with data."));
   (py "metadata",
    PDict [(py "role", PStr (py "Data Analyst"));
           (py "autonomy_level", PStr (py "high"));
           (py "specialties", PList [py "sql"; py "python"; py "charts"])])].
Proof. reflexivity. Qed.

(** C5. The singular label is not recognised: on "Specialty: sql, python"
    the pattern [Specialties?:] finds nothing and the record has no
    specialties, whereas the same line with the plural label yields
    [sql, python]. *)
Theorem specialty_singular_not_extracted :
  search specialties_flags specialties_re (py "Specialty: sql, python") = None
  /\ get_in (py "metadata") (py "specialties")
       (extract_metadata_from_persona (py "Specialty: sql, python") (py "p"))
     = None
  /\ get_in (py "metadata") (py "specialties")
       (extract_metadata_from_persona (py "Specialties: sql, python") (py "p"))
     = Some (PList [py "sql"; py "python"]).
Proof. repeat split; reflexivity. Qed.

(** The singular form the pattern does accept is the one spelt with
    "ie". *)
Example specialtie_is_extracted :
  get_in (py "metadata") (py "specialties")
    (extract_metadata_from_persona (py "Specialtie: sql, python") (py "p"))
  = Some (PList [py "sql"; py "python"]).
Proof. reflexivity. Qed.

(** C7. A list item that directly follows the heading is taken as the
    description: for "# Title\n- item one\n" the description is
    "- item one". *)
Theorem description_takes_leading_list_item :
  description_of
    (extract_metadata_from_persona
       (py "# Title" ++ [nl] ++ py "- item one" ++ [nl]) (py "p"))
  = py "- item one".
Proof. reflexivity. Qed.

(** The same line is rejected once accumulation is under way. *)
Example description_stops_at_later_list_item :
  description_of
    (extract_metadata_from_persona
       (py "# Title" ++ [nl] ++ py "Intro." ++ [nl] ++ py "- item one" ++ [nl])
       (py "p"))
  = py "Intro.".
Proof. reflexivity. Qed.

(** Distinct literals are distinct keys. *)
Ltac py_neq := let H := fresh in intro H; vm_compute in H; discriminate H.

Lemma get_set_in_other k1 k2 v k d :
  k1 <> k -> dict_get k (set_in k1 k2 v d) = dict_get k d.
Proof. intros H. unfold set_in. now apply dict_get_set_neq. Qed.

Lemma subdict_set_in k1 k2 v d :
  subdict k1 (set_in k1 k2 v d) = dict_set k2 v (subdict k1 d).
Proof. unfold subdict at 1, set_in. now rewrite dict_get_set_eq. Qed.

Lemma get_in_set_in_eq k1 k2 v d : get_in k1 k2 (set_in k1 k2 v d) = Some v.
Proof. unfold get_in. now rewrite subdict_set_in, dict_get_set_eq. Qed.

Lemma get_in_set_in_neq k1 k2 k2' v d :
  k2 <> k2' -> get_in k1 k2' (set_in k1 k2 v d) = get_in k1 k2' d.
Proof.
  intros H. unfold get_in. rewrite subdict_set_in. now apply dict_get_set_neq.
Qed.

(** The line loop only ever writes under the [metadata] key. *)
Lemma scan_lines_keeps_key k lines st :
  py "metadata" <> k ->
  dict_get k (metadata (scan_lines lines st)) = dict_get k (metadata st).
Proof.
  intros Hk. revert st.
  induction lines as [|raw rest IH]; intros st; cbn [scan_lines]; [reflexivity|].
  cbv zeta.
  destruct (nonempty (strip raw)); cbn [negb andb].
  - destruct (startswith (ch "#") (strip raw)); cbn [negb andb].
    + rewrite IH. cbn [metadata].
      destruct (truthy _); cbn [negb]; [reflexivity|].
      now apply get_set_in_other.
    + destruct (in_header st); cbn [negb andb].
      * now rewrite IH.
      * destruct (startswith (ch "-") (strip raw)); cbn [negb];
          [reflexivity | now rewrite IH].
  - destruct (has_lines (desc_lines st)); [reflexivity | apply IH].
Qed.

(** What the loop accumulates is never blank and never a heading; a
    list item can only enter as the line that follows a heading or
    opens the text. *)
Lemma scan_lines_desc_lines lines st :
  Forall (fun l => nonempty l = true /\ startswith (ch "#") l = false)
         (desc_lines st) ->
  Forall (fun l => nonempty l = true /\ startswith (ch "#") l = false)
         (desc_lines (scan_lines lines st)).
Proof.
  revert st.
  induction lines as [|raw rest IH]; intros st Hst; cbn [scan_lines];
    [exact Hst|].
  cbv zeta.
  destruct (nonempty (strip raw)) eqn:Hne; cbn [negb andb].
  - destruct (startswith (ch "#") (strip raw)) eqn:Hh; cbn [negb andb].
    + apply IH. exact Hst.
    + destruct (in_header st); cbn [negb andb].
      * apply IH. cbn [desc_lines]. apply Forall_app. split; [exact Hst|].
        constructor; [auto | constructor].
      * destruct (startswith (ch "-") (strip raw)); cbn [negb]; [exact Hst|].
        apply IH. cbn [desc_lines]. apply Forall_app. split; [exact Hst|].
        constructor; [auto | constructor].
  - destruct (has_lines (desc_lines st)); [exact Hst | apply IH; exact Hst].
Qed.

(** The description the extractor stores. *)
Lemma extract_description content persona_name :
  dict_get (py "description")
           (extract_metadata_from_persona content persona_name)
  = Some (PStr (slice_to 500
       (join (py " ")
          (desc_lines
             (scan_lines (split nl (strip content))
                (Scan [(py "name", PStr persona_name);
                       (py "description", PStr []);
                       (py "metadata", PDict [])] [] true)))))).
Proof.
  unfold extract_metadata_from_persona.
  destruct (search specialties_flags specialties_re content);
    destruct (search autonomy_flags autonomy_re content);
    repeat (rewrite get_set_in_other by py_neq);
    apply dict_get_set_eq.
Qed.

Lemma extract_name content persona_name :
  dict_get (py "name") (extract_metadata_from_persona content persona_name)
  = Some (PStr persona_name).
Proof.
  unfold extract_metadata_from_persona.
  destruct (search specialties_flags specialties_re content);
    destruct (search autonomy_flags autonomy_re content);
    repeat (rewrite get_set_in_other by py_neq);
    (rewrite dict_get_set_neq by py_neq);
    (rewrite scan_lines_keeps_key by py_neq); reflexivity.
Qed.

(** C9. The description of the record the extractor returns has at most
    500 characters, for every text and every directory name. *)
Theorem description_at_most_500 (content persona_name : pystr) :
  length (description_of (extract_metadata_from_persona content persona_name))
  <= 500.
Proof.
  unfold description_of. rewrite extract_description.
  unfold slice_to. apply firstn_le_length.
Qed.

(** Whatever the text and the directory name, the record built for the
    frontmatter has the keys [name] (the directory name), [description]
    (a string, possibly empty), [license] = "Proprietary",
    [compatibility] = "Designed for Loom", and a nested [metadata]
    dictionary with [author] = "loom" and [version] = "1.0". *)
Lemma skill_metadata_standard_fields (content persona_name : pystr) :
  let md := skill_metadata content persona_name in
  dict_get (py "name") md = Some (PStr persona_name)
  /\ (exists d, dict_get (py "description") md = Some (PStr d))
  /\ dict_get (py "license") md = Some (PStr (py "Proprietary"))
  /\ dict_get (py "compatibility") md = Some (PStr (py "Designed for Loom"))
  /\ (exists sub, dict_get (py "metadata") md = Some (PDict sub)
                  /\ dict_get (py "author") sub = Some (PStr (py "loom"))
                  /\ dict_get (py "version") sub = Some (PStr (py "1.0"))).
Proof.
  unfold skill_metadata. cbv zeta. repeat split.
  - repeat (rewrite get_set_in_other by py_neq).
    repeat (rewrite dict_get_set_neq by py_neq).
    apply extract_name.
  - eexists.
    repeat (rewrite get_set_in_other by py_neq).
    repeat (rewrite dict_get_set_neq by py_neq).
    apply extract_description.
  - repeat (rewrite get_set_in_other by py_neq).
    rewrite dict_get_set_neq by py_neq. apply dict_get_set_eq.
  - repeat (rewrite get_set_in_other by py_neq).
    apply dict_get_set_eq.
  - eexists. split.
    + unfold set_in at 1. apply dict_get_set_eq.
    + split.
      * rewrite dict_get_set_neq by py_neq.
        rewrite subdict_set_in. apply dict_get_set_eq.
      * apply dict_get_set_eq.
Qed.

(** The description key is there even when nothing was accumulated. *)
Example frontmatter_empty_description :
  dict_get (py "description") (skill_metadata [] (py "p")) = Some (PStr []).
Proof. reflexivity. Qed.

(* ------------------------------------------------------------------ *)
(** * Facts about the file tree *)

Section TreeFacts.

Lemma entry_set_eq x n es : entry x (set_entry x n es) = Some n.
Proof.
  induction es as [|[y m] es IH]; simpl.
  - now rewrite pystr_eqb_refl.
  - destruct (pystr_eqb y x) eqn:E; simpl; rewrite E; auto.
Qed.

Lemma entry_set_neq x y n es :
  x <> y -> entry y (set_entry x n es) = entry y es.
Proof.
  intros Hne. induction es as [|[z m] es IH]; simpl.
  - apply pystr_eqb_neq in Hne. now rewrite Hne.
  - destruct (pystr_eqb z x) eqn:E; simpl.
    + apply pystr_eqb_eq in E; subst z.
      apply pystr_eqb_neq in Hne. now rewrite Hne.
    + now rewrite IH.
Qed.

Lemma entry_del_eq x es : entry x (del_entry x es) = None.
Proof.
  induction es as [|[y m] es IH]; simpl; [reflexivity|].
  destruct (pystr_eqb y x) eqn:E; simpl; [auto | rewrite E; auto].
Qed.

Lemma entry_del_neq x y es :
  x <> y -> entry y (del_entry x es) = entry y es.
Proof.
  intros Hne. induction es as [|[z m] es IH]; simpl; [reflexivity|].
  destruct (pystr_eqb z x) eqn:E; simpl.
  - apply pystr_eqb_eq in E; subst z.
    apply pystr_eqb_neq in Hne. now rewrite Hne.
  - now rewrite IH.
Qed.

Lemma entry_alter_eq x f es : entry x (alter_entry x f es) = f (entry x es).
Proof.
  unfold alter_entry. destruct (f (entry x es));
    [apply entry_set_eq | apply entry_del_eq].
Qed.

Lemma entry_alter_neq x y f es :
  x <> y -> entry y (alter_entry x f es) = entry y es.
Proof.
  intros Hne. unfold alter_entry. destruct (f (entry x es));
    [now apply entry_set_neq | now apply entry_del_neq].
Qed.

Lemma lookup_app p q n :
  lookup (p ++ q) n =
  match lookup p n with
  | Some c => lookup q c
  | None => None
  end.
Proof.
  revert n. induction p as [|x p IH]; intros n; simpl; [reflexivity|].
  destruct n as [data|es]; [reflexivity|].
  destruct (entry x es); [apply IH | reflexivity].
Qed.

Lemma lookup_single x n :
  lookup [x] n = match n with Dir es => entry x es | File _ => None end.
Proof.
  simpl. destruct n as [data|es]; [reflexivity|].
  now destruct (entry x es).
Qed.

Lemma lookup_child p x n :
  lookup (p // x) n =
  match lookup p n with
  | Some (Dir es) => entry x es
  | _ => None
  end.
Proof.
  unfold child. rewrite lookup_app.
  destruct (lookup p n) as [c|]; [|reflexivity].
  rewrite lookup_single. now destruct c.
Qed.

Lemma name_child p x : name (p // x) = x.
Proof. unfold name, child. apply last_last. Qed.

Lemma parent_child p x : parent (p // x) = p.
Proof. unfold parent, child. apply removelast_last. Qed.

(** Removing an entry removes it. *)
Lemma lookup_update_del p n :
  p <> [] -> lookup p (update p (fun _ => None) n) = None.
Proof.
  revert n. induction p as [|x p IH]; intros n Hp; [congruence|].
  destruct n as [data|es]; [reflexivity|].
  destruct p as [|y p'].
  - cbn [update lookup]. now rewrite entry_alter_eq.
  - cbn [update]. destruct (entry x es) as [c|] eqn:E.
    + cbn [lookup]. rewrite entry_set_eq. apply IH. discriminate.
    + cbn [lookup]. now rewrite E.
Qed.

(** Changing what is at [p], when the parent of [p] is a directory. *)
Lemma lookup_update_same p f n :
  p <> [] ->
  node_is_dir (lookup (parent p) n) = true ->
  lookup p (update p f n) = f (lookup p n).
Proof.
  revert n. induction p as [|x p IH]; intros n Hp Hd; [congruence|].
  destruct p as [|y p'].
  - cbn in Hd. destruct n as [data|es]; [discriminate|].
    cbn [update]. rewrite !lookup_single. apply entry_alter_eq.
  - change (parent (x :: y :: p')) with (x :: parent (y :: p')) in Hd.
    destruct n as [data|es]; [discriminate|].
    cbn [lookup] in Hd. cbn [update].
    destruct (entry x es) as [c|] eqn:E; [|discriminate].
    cbn [lookup]. rewrite entry_set_eq, E. apply IH; [discriminate | exact Hd].
Qed.

(** A change at a path leaves alone every path that branches off it. *)
Lemma lookup_update_diverge r a b p' q' f n :
  a <> b ->
  lookup (r ++ b :: q') (update (r ++ a :: p') f n)
  = lookup (r ++ b :: q') n.
Proof.
  intros Hne. revert n. induction r as [|x r IH]; intros n.
  - cbn [app]. destruct n as [data|es]; [now destruct p'|].
    destruct p' as [|y p''].
    + cbn [update lookup]. now rewrite entry_alter_neq.
    + cbn [update]. destruct (entry a es) as [c|]; [|reflexivity].
      cbn [lookup]. now rewrite entry_set_neq.
  - change ((x :: r) ++ a :: p') with (x :: (r ++ a :: p')).
    change ((x :: r) ++ b :: q') with (x :: (r ++ b :: q')).
    destruct n as [data|es]; [reflexivity|].
    cbn [update].
    destruct (r ++ a :: p') as [|z t] eqn:Et.
    { destruct r; discriminate. }
    destruct (entry x es) as [c|] eqn:E; [|reflexivity].
    cbn [lookup]. rewrite entry_set_eq, E. apply IH.
Qed.

Lemma lookup_update_sibling d a b f n :
  a <> b -> lookup (d // b) (update (d // a) f n) = lookup (d // b) n.
Proof. intros H. unfold child. now apply lookup_update_diverge. Qed.

Lemma lookup_update_nephew d a b c f n :
  a <> b -> lookup (d // b) (update (d // a // c) f n) = lookup (d // b) n.
Proof.
  intros H. unfold child. rewrite <- app_assoc. cbn [app].
  now apply lookup_update_diverge.
Qed.

Lemma is_prefix_app d p q : is_prefix (d ++ p) (d ++ q) = is_prefix p q.
Proof.
  induction d as [|x d IH]; [reflexivity|].
  cbn [app is_prefix]. now rewrite pystr_eqb_refl.
Qed.

End TreeFacts.

(* ------------------------------------------------------------------ *)
(** * Reasoning about computations *)

Section MonadFacts.

Lemma bind_return_inv {A B} (m : M A) (k : A -> M B) w b w' :
  bind m k w = (Return b, w') ->
  exists a w1, m w = (Return a, w1) /\ k a w1 = (Return b, w').
Proof.
  unfold bind. destruct (m w) as [[a|e] w1]; [eauto | discriminate].
Qed.

Lemma exists_inv p w b w1 :
  exists_ p w = (Return b, w1) ->
  w1 = w /\ b = is_some (lookup p (tree w)).
Proof. cbv [exists_ bind get_node ret]. intros H; inversion H; auto. Qed.

Lemma read_text_inv p w c w1 :
  read_text p w = (Return c, w1) ->
  w1 = w /\ lookup p (tree w) = Some (File c).
Proof.
  cbv [read_text bind get_node]. destruct (lookup p (tree w)) as [[data|es]|];
    cbv [ret raise]; intros H; inversion H; auto.
Qed.

Lemma write_text_inv p data w u w1 :
  write_text p data w = (Return u, w1) ->
  w1 = World (update p (fun _ => Some (File data)) (tree w)) (stdout w)
  /\ node_is_dir (lookup (parent p) (tree w)) = true.
Proof.
  cbv [write_text bind get_node].
  destruct (lookup p (tree w)) as [[old|es]|];
    destruct (lookup (parent p) (tree w)) as [[pd|pes]|];
    cbv [ret raise modify]; intros H; inversion H; auto.
Qed.

Lemma print_inv m w u w1 :
  print m w = (Return u, w1) -> w1 = World (tree w) (stdout w ++ [m]).
Proof. cbv [print]. intros H; inversion H; auto. Qed.

Lemma iterdir_inv p w l w1 :
  iterdir p w = (Return l, w1) ->
  w1 = w /\ exists es, lookup p (tree w) = Some (Dir es)
                       /\ l = map (fun e => p // fst e) es.
Proof.
  cbv [iterdir bind get_node]. destruct (lookup p (tree w)) as [[data|es]|];
    cbv [ret raise]; intros H; inversion H; eauto.
Qed.

Lemma is_additional_run f w :
  is_additional f w =
  (Return (node_is_file (lookup f (tree w))
           && negb (name_in (name f) excluded_names)), w).
Proof. reflexivity. Qed.

(** The selection of the additional files reads the tree only. *)
Lemma filter_m_is_additional xs w :
  filter_m is_additional xs w =
  (Return (filter (fun f => node_is_file (lookup f (tree w))
                            && negb (name_in (name f) excluded_names)) xs),
   w).
Proof.
  induction xs as [|x xs IH]; [reflexivity|].
  cbn [filter_m filter]. unfold bind.
  rewrite is_additional_run, IH. cbv [ret].
  now destruct (node_is_file (lookup x (tree w))
                && negb (name_in (name x) excluded_names)).
Qed.

(** [keeps q m]: running [m] leaves what is at [q] as it was,
    whether [m] returns or raises. *)
Definition keeps {A} (q : path) (m : M A) : Prop :=
  forall w, lookup q (tree (snd (m w))) = lookup q (tree w).

Lemma keeps_ret {A} q (a : A) : keeps q (ret a).
Proof. intros w; reflexivity. Qed.

Lemma keeps_raise {A} q e : keeps q (@raise A e).
Proof. intros w; reflexivity. Qed.

Lemma keeps_print q m : keeps q (print m).
Proof. intros w; reflexivity. Qed.

Lemma keeps_get_node q p : keeps q (get_node p).
Proof. intros w; reflexivity. Qed.

Lemma keeps_modify q p f :
  (forall t, lookup q (update p f t) = lookup q t) -> keeps q (modify p f).
Proof. intros H w. cbn. apply H. Qed.

Lemma keeps_bind {A B} q (m : M A) (k : A -> M B) :
  keeps q m -> (forall a, keeps q (k a)) -> keeps q (bind m k).
Proof.
  intros Hm Hk w. unfold bind. specialize (Hm w).
  destruct (m w) as [[a|e] w1]; cbn in Hm; cbn [snd];
    [now rewrite Hk | exact Hm].
Qed.

Lemma keeps_for_each {A} q (body : A -> M unit) xs :
  Forall (fun x => keeps q (body x)) xs -> keeps q (for_each xs body).
Proof.
  induction 1 as [|x xs Hx _ IH]; cbn [for_each].
  - apply keeps_ret.
  - apply keeps_bind; auto.
Qed.

Definition untouched_by (q p : path) : Prop :=
  forall f t, lookup q (update p f t) = lookup q t.

Lemma keeps_unlink q p : untouched_by q p -> keeps q (unlink p).
Proof.
  intros H. unfold unlink. apply keeps_bind; [apply keeps_get_node|].
  intros [[data|es]|];
    [apply keeps_modify; intros t; apply H | apply keeps_raise ..].
Qed.

Lemma keeps_mkdir q p : untouched_by q p -> keeps q (mkdir_exist_ok p).
Proof.
  intros H. unfold mkdir_exist_ok. apply keeps_bind; [apply keeps_get_node|].
  intros [[data|es]|]; [apply keeps_raise | apply keeps_ret |].
  apply keeps_bind; [apply keeps_get_node|].
  intros [[data|es]|];
    [apply keeps_raise | apply keeps_modify; intros t; apply H
     | apply keeps_raise].
Qed.

Lemma keeps_move q src dst n :
  untouched_by q src -> untouched_by q dst -> keeps q (move src dst n).
Proof.
  intros Hs Hd. unfold move.
  apply keeps_bind; [|intros _]; apply keeps_modify; intros t; auto.
Qed.

Lemma keeps_rename q plat src dst :
  untouched_by q src -> untouched_by q dst -> keeps q (rename plat src dst).
Proof.
  intros Hs Hd. unfold rename. apply keeps_bind; [apply keeps_get_node|].
  intros [n|]; [|apply keeps_raise].
  apply keeps_bind; [apply keeps_get_node|].
  intros [[data|es]|]; [apply keeps_raise | | apply keeps_raise].
  destruct (is_prefix src dst).
  - destruct (is_prefix dst src); [apply keeps_ret | apply keeps_raise].
  - apply keeps_bind; [apply keeps_get_node|].
    intros [old|]; [|now apply keeps_move].
    destruct plat; [|apply keeps_raise].
    destruct n as [c|ces], old as [oc|[|oe oes]];
      try apply keeps_raise; now apply keeps_move.
Qed.

Lemma keeps_move_to_references q plat ref_dir file :
  untouched_by q file -> untouched_by q (ref_dir // name file) ->
  keeps q (move_to_references plat ref_dir file).
Proof.
  intros Hs Hd. unfold move_to_references.
  apply keeps_bind; [now apply keeps_rename | intros _; apply keeps_print].
Qed.

Lemma keeps_run {A} q (m : M A) w r w1 :
  keeps q m -> m w = (r, w1) -> lookup q (tree w1) = lookup q (tree w).
Proof. intros H E. specialize (H w). now rewrite E in H. Qed.

Lemma child_nonempty p x : p // x <> [].
Proof. unfold child. destruct p; discriminate. Qed.

(** [if p.exists(): p.unlink(); print(m)]: afterwards nothing is at
    [p], and what is beside it is as before. *)
Lemma unlink_if_exists_inv p m w u w1 :
  (if is_some (lookup p (tree w)) then unlink p ;; print m else ret tt) w
  = (Return u, w1) ->
  p <> [] ->
  lookup p (tree w1) = None
  /\ forall q, untouched_by q p -> lookup q (tree w1) = lookup q (tree w).
Proof.
  intros H Hp.
  destruct (lookup p (tree w)) as [[data|es]|] eqn:E; cbn [is_some] in H.
  - cbv [unlink bind get_node] in H. rewrite E in H.
    cbv [modify print ret] in H. inversion H; subst w1; cbn [tree].
    split; [now apply lookup_update_del | intros q Hq; apply Hq].
  - cbv [unlink bind get_node] in H. rewrite E in H.
    cbv [raise] in H. discriminate.
  - cbv [ret] in H. inversion H; subst w1. split; [exact E | reflexivity].
Qed.

End MonadFacts.

(* ------------------------------------------------------------------ *)
(** * Properties of the migration *)

(** A stand-in for [yaml.dump] in the examples: the top-level string
    fields as plain [key: value] lines.  The theorems hold for every
    serialiser. *)
Definition plain_dump (d : dict) : pystr :=
  flat_map (fun kv => match snd kv with
                      | PStr s => fst kv ++ py ": " ++ s ++ [nl]
                      | _ => []
                      end) d.

(** Scenario B of the specification, with a reference file of the same
    name already in place, next to a directory without PERSONA.md and
    the reserved [templates] organisation. *)
Definition bob : path := [py "personas"; py "org"; py "bob"].
Definition zed : path := [py "personas"; py "org"; py "zed"].

Definition demo_tree : node :=
  Dir [(py "personas",
        Dir [(py "templates",
              Dir [(py "base", Dir [(py "PERSONA.md", File (py "# Base"))])]);
             (py "org",
              Dir [(py "zed", Dir [(py "readme.txt", File (py "nothing here"))]);
                   (py "bob",
                    Dir [(py "PERSONA.md", File scenario_a);
                         (py "AI_START_HERE.md",
                          File (py "# Start" ++ [nl; nl] ++ py "Go." ++ [nl]));
                         (py "notes.txt", File (py "new notes"));
                         (py "references",
                          Dir [(py "notes.txt", File (py "old notes"))])])])])].

Definition demo_world : world := World demo_tree [].

(** C1. When [create_skill_md] returns True for a directory, PERSONA.md
    was a file of that directory, SKILL.md is now a file of it whose
    text is the frontmatter of the record named after the directory
    followed by the body, and neither PERSONA.md nor AI_START_HERE.md is
    there any more. *)
Theorem create_skill_md_postcondition
        (yaml_dump : dict -> pystr) (plat : platform)
        (persona_dir : path) (w w' : world) :
  create_skill_md yaml_dump plat persona_dir w = (Return true, w') ->
  exists persona_content ai_start_content,
    lookup (persona_dir // PERSONA_md) (tree w) = Some (File persona_content)
    /\ lookup (persona_dir // SKILL_md) (tree w')
       = Some (File (py "---" ++ [nl]
                     ++ yaml_dump (skill_metadata persona_content (name persona_dir))
                     ++ py "---" ++ [nl; nl]
                     ++ skill_body persona_content ai_start_content ++ [nl]))
    /\ dict_get (py "name") (skill_metadata persona_content (name persona_dir))
       = Some (PStr (name persona_dir))
    /\ lookup (persona_dir // PERSONA_md) (tree w') = None
    /\ lookup (persona_dir // AI_START_HERE_md) (tree w') = None.
Proof.
  intros H. unfold create_skill_md in H.
  apply bind_return_inv in H as (ex & w0 & He & H).
  apply exists_inv in He as [-> ->].
  destruct (lookup (persona_dir // PERSONA_md) (tree w)) as [pn|] eqn:HP;
    cbn [is_some negb] in H.
  2: { cbv [bind print ret] in H. discriminate. }
  apply bind_return_inv in H as (pc & w1 & Hr & H).
  apply read_text_inv in Hr as [-> Hpc]. rewrite HP in Hpc.
  apply bind_return_inv in H as (aiex & w1 & He & H).
  apply exists_inv in He as [-> ->].
  apply bind_return_inv in H as (ai & w1 & Hai & H).
  assert (w1 = w) as ->.
  { destruct (is_some (lookup (persona_dir // AI_START_HERE_md) (tree w))).
    - now apply read_text_inv in Hai as [-> _].
    - cbv [ret] in Hai. now inversion Hai. }
  clear Hai.
  apply bind_return_inv in H as (u1 & w2 & Hw & H).
  apply write_text_inv in Hw as [-> Hpd].
  apply bind_return_inv in H as (u2 & w3 & Hp & H).
  apply print_inv in Hp as ->. cbn [tree stdout] in H.
  apply bind_return_inv in H as (children & w4 & Hi & H).
  apply iterdir_inv in Hi as [-> (es & Hes & ->)].
  apply bind_return_inv in H as (additional & w5 & Hf & H).
  rewrite filter_m_is_additional in Hf. inversion Hf; subst additional w5.
  clear Hf. cbn [tree] in H.
  apply bind_return_inv in H as (u3 & w6 & Hmove & H).
  apply bind_return_inv in H as (ex1 & w7 & He & H).
  apply exists_inv in He as [-> ->].
  apply bind_return_inv in H as (u4 & w8 & Hdel1 & H).
  apply unlink_if_exists_inv in Hdel1 as [Hnone1 Hkeep1];
    [|apply child_nonempty].
  apply bind_return_inv in H as (ex2 & w9 & He & H).
  apply exists_inv in He as [-> ->].
  apply bind_return_inv in H as (u5 & w10 & Hdel2 & H).
  apply unlink_if_exists_inv in Hdel2 as [Hnone2 Hkeep2];
    [|apply child_nonempty].
  cbv [ret] in H. inversion H; subst w10. clear H.
  exists pc, ai. split; [congruence|]. split; [|split; [|split]].
  - rewrite Hkeep2
      by (intros f t; apply lookup_update_sibling; py_neq).
    rewrite Hkeep1
      by (intros f t; apply lookup_update_sibling; py_neq).
    match type of Hmove with ?m _ = _ =>
      assert (Hk : keeps (persona_dir // SKILL_md) m) end.
    { match goal with |- keeps _ (match ?l with _ => _ end) =>
        assert (Hall : Forall (fun f => exists x, f = persona_dir // x
                                                  /\ x <> SKILL_md) l) end.
      { apply Forall_forall. intros f Hin.
        apply filter_In in Hin as [Hin Hc].
        apply in_map_iff in Hin as (e & Hf & _). subst f.
        exists (fst e). split; [reflexivity|].
        apply andb_true_iff in Hc as [_ Hc]. rewrite name_child in Hc.
        intros Hx. rewrite Hx in Hc. vm_compute in Hc. discriminate. }
      destruct (filter _ _) as [|f0 fs]; [apply keeps_ret|].
      apply keeps_bind.
      - apply keeps_mkdir. intros f t. apply lookup_update_sibling. py_neq.
      - intros _. apply keeps_for_each.
        eapply Forall_impl; [|exact Hall].
        intros f (x & -> & Hx). apply keeps_move_to_references.
        + intros g t. apply lookup_update_sibling. exact Hx.
        + intros g t. apply lookup_update_nephew. py_neq. }
    rewrite (@keeps_run _ _ _ _ _ _ Hk Hmove). cbn [tree].
    rewrite lookup_update_same; [reflexivity | apply child_nonempty | exact Hpd].
  - unfold skill_metadata.
    repeat (rewrite get_set_in_other by py_neq).
    repeat (rewrite dict_get_set_neq by py_neq).
    apply extract_name.
  - rewrite Hkeep2
      by (intros f t; apply lookup_update_sibling; py_neq).
    exact Hnone1.
  - exact Hnone2.
Qed.

(** The theorem at work on the demo directory. *)
Lemma create_skill_md_postcondition_witness :
  exists persona_content ai_start_content,
    lookup (bob // PERSONA_md) demo_tree = Some (File persona_content)
    /\ lookup (bob // SKILL_md)
              (tree (snd (create_skill_md plain_dump Posix bob demo_world)))
       = Some (File (py "---" ++ [nl]
                     ++ plain_dump (skill_metadata persona_content (name bob))
                     ++ py "---" ++ [nl; nl]
                     ++ skill_body persona_content ai_start_content ++ [nl]))
    /\ dict_get (py "name") (skill_metadata persona_content (name bob))
       = Some (PStr (name bob))
    /\ lookup (bob // PERSONA_md)
              (tree (snd (create_skill_md plain_dump Posix bob demo_world)))
       = None
    /\ lookup (bob // AI_START_HERE_md)
              (tree (snd (create_skill_md plain_dump Posix bob demo_world)))
       = None.
Proof.
  apply (create_skill_md_postcondition plain_dump Posix bob demo_world).
  vm_compute. reflexivity.
Defined.

(** C2. In a directory without PERSONA.md, [create_skill_md] returns
    False having only printed its warning (the tree is the same), and
    the conversion loop goes on with the remaining directories with the
    success count as it was. *)
Theorem missing_persona_is_skipped
        (yaml_dump : dict -> pystr) (plat : platform)
        (persona_dir : path) (rest : list path) (success_count : nat)
        (w : world) :
  lookup (persona_dir // PERSONA_md) (tree w) = None ->
  create_skill_md yaml_dump plat persona_dir w
  = (Return false, World (tree w) (stdout w ++ [MsgNoPersona persona_dir]))
  /\ convert_all yaml_dump plat (persona_dir :: rest) success_count w
     = convert_all yaml_dump plat rest success_count
         (World (tree w)
                (stdout w ++ [MsgConverting (relative_to_root persona_dir);
                              MsgNoPersona persona_dir; MsgBlank])).
Proof.
  intros H.
  assert (Hc : forall out,
             create_skill_md yaml_dump plat persona_dir (World (tree w) out)
             = (Return false,
                World (tree w) (out ++ [MsgNoPersona persona_dir]))).
  { intros out. unfold create_skill_md.
    unfold bind at 1. unfold exists_, bind at 1, get_node, ret at 1.
    cbn [tree]. rewrite H. reflexivity. }
  split.
  - destruct w as [t out]. apply Hc.
  - cbn [convert_all]. unfold bind at 1. unfold print at 1.
    unfold bind at 1. rewrite Hc.
    unfold bind at 1. unfold print at 1. cbn [tree stdout].
    now rewrite <- !app_assoc.
Qed.

Lemma missing_persona_is_skipped_witness :
  create_skill_md plain_dump Posix zed demo_world
  = (Return false, World demo_tree [MsgNoPersona zed])
  /\ convert_all plain_dump Posix [zed; bob] 0 demo_world
     = convert_all plain_dump Posix [bob] 0
         (World demo_tree
                [MsgConverting (relative_to_root zed); MsgNoPersona zed;
                 MsgBlank]).
Proof.
  apply (missing_persona_is_skipped plain_dump Posix zed [bob] 0 demo_world).
  vm_compute. reflexivity.
Defined.

(** C3. Without the root directory [main] returns 1 and leaves the tree
    as it is; with it, a run that completes returns 0 (the only other
    outcome is an exception that escapes). *)
Theorem main_exit_status
        (yaml_dump : dict -> pystr) (plat : platform) (w : world) :
  match lookup root (tree w) with
  | None =>
      main yaml_dump plat w = (Return 1, World (tree w) (stdout w ++ [MsgNoRoot]))
  | Some _ =>
      fst (main yaml_dump plat w) = Return 0
      \/ exists e, fst (main yaml_dump plat w) = Raise e
  end.
Proof.
  cbv [main bind exists_ get_node ret print].
  destruct (lookup root (tree w)) as [n|]; cbn [is_some negb].
  - destruct (iterdir root w) as [[orgs|e] w1]; [|right; eexists; reflexivity].
    destruct (scan_root orgs [] w1) as [[dirs|e] w2]; [|right; eexists; reflexivity].
    destruct (convert_all yaml_dump plat (sorted dirs) 0 _) as [[n'|e] w3];
      [left; reflexivity | right; eexists; reflexivity].
  - reflexivity.
Qed.

(** A run in which one directory is skipped still completes with
    status 0, and reports one success out of two. *)
Example main_with_a_skipped_directory :
  fst (main plain_dump Posix demo_world) = Return 0
  /\ last (stdout (snd (main plain_dump Posix demo_world))) MsgBlank
     = MsgSummary 1 2.
Proof. split; vm_compute; reflexivity. Qed.

(** Scenario D at a tree without [personas/]. *)
Example main_without_root :
  main plain_dump Posix (World (Dir []) []) = (Return 1, World (Dir []) [MsgNoRoot]).
Proof. reflexivity. Qed.

(** C8, as stated, fails on POSIX: in the demo directory notes.txt and
    references/notes.txt both exist; the migration returns True and
    references/notes.txt now holds the text of the moved file, the old
    one being lost without any error. *)
Lemma collision_overwrites_silently_on_posix :
  let file := bob // py "notes.txt" in
  let dest := bob // references // py "notes.txt" in
  let result := create_skill_md plain_dump Posix bob demo_world in
  lookup file demo_tree = Some (File (py "new notes"))
  /\ lookup dest demo_tree = Some (File (py "old notes"))
  /\ fst result = Return true
  /\ lookup dest (tree (snd result)) = Some (File (py "new notes"))
  /\ fst (move_to_references Posix (bob // references) file demo_world)
     = Return tt.
Proof. cbv zeta. repeat split; vm_compute; reflexivity. Qed.

(** C8, amended.  Moving a regular file onto an existing entry of
    references/ follows the platform: on POSIX an existing regular file
    is replaced by the moved one without an error and an existing
    directory makes the move raise IsADirectoryError; on Windows the
    move raises FileExistsError.  When it raises, nothing has changed. *)
Theorem move_onto_existing_entry
        (plat : platform) (persona_dir : path) (x data : pystr)
        (old : node) (w : world) :
  lookup (persona_dir // x) (tree w) = Some (File data) ->
  lookup (persona_dir // references // x) (tree w) = Some old ->
  let move := move_to_references plat (persona_dir // references)
                                 (persona_dir // x) in
  match plat, old with
  | Windows, _ => move w = (Raise FileExistsError, w)
  | Posix, Dir _ => move w = (Raise IsADirectoryError, w)
  | Posix, File _ =>
      exists t,
        move w = (Return tt, World t (stdout w ++ [MsgMoved x]))
        /\ lookup (persona_dir // references // x) t = Some (File data)
        /\ lookup (persona_dir // x) t = None
  end.
Proof.
  intros Hsrc Hdst.
  assert (Hx : x <> references).
  { intros ->. rewrite lookup_child, Hsrc in Hdst. discriminate. }
  assert (Href : node_is_dir (lookup (persona_dir // references) (tree w)) = true).
  { rewrite lookup_child in Hdst.
    destruct (lookup (persona_dir // references) (tree w)) as [[c|es]|];
      [discriminate | reflexivity | discriminate]. }
  assert (Hpre : is_prefix (persona_dir // x) (persona_dir // references // x)
                 = false).
  { unfold child. rewrite <- app_assoc, is_prefix_app. cbn [app is_prefix].
    apply pystr_eqb_neq in Hx. now rewrite Hx. }
  cbv zeta. unfold move_to_references. rewrite name_child.
  unfold rename, bind, get_node. rewrite Hsrc, parent_child.
  destruct (lookup (persona_dir // references) (tree w)) as [[c|es]|] eqn:Er;
    try discriminate.
  rewrite Hpre, Hdst.
  destruct plat; [|reflexivity].
  destruct old as [oc|oes]; [|reflexivity].
  cbv [move bind modify print]. cbn [tree stdout].
  eexists. split; [reflexivity|]. split.
  - rewrite lookup_update_same; [reflexivity | apply child_nonempty |].
    rewrite parent_child, lookup_update_sibling by exact Hx.
    now rewrite Er.
  - rewrite lookup_update_nephew by (intros E; apply Hx; now rewrite E).
    apply lookup_update_del, child_nonempty.
Qed.

Lemma move_onto_existing_entry_witness :
  exists t,
    move_to_references Posix (bob // references) (bob // py "notes.txt")
                       demo_world
    = (Return tt, World t ([] ++ [MsgMoved (py "notes.txt")]))
    /\ lookup (bob // references // py "notes.txt") t
       = Some (File (py "new notes"))
    /\ lookup (bob // py "notes.txt") t = None.
Proof.
  apply (@move_onto_existing_entry Posix bob (py "notes.txt") (py "new notes")
           (File (py "old notes")) demo_world);
    vm_compute; reflexivity.
Defined.

(** On Windows the same collision stops the migration of the directory
    with FileExistsError; SKILL.md has been written by then and the old
    files are still there. *)
Example collision_raises_on_windows :
  fst (create_skill_md plain_dump Windows bob demo_world)
  = Raise FileExistsError.
Proof. vm_compute. reflexivity. Qed.

(* ------------------------------------------------------------------ *)
(** * The quick-start part of the body *)

(** C6. A quick-start text that is only a heading line keeps that
    heading: the text is stripped before the pattern is applied, the
    pattern needs a newline after the heading, so nothing is removed and
    the body has a Quick Start block holding the heading itself. *)
Theorem heading_only_quick_start_is_kept :
  quick_start_part (py "# Title" ++ [nl])
  = [py "# Quick Start" ++ [nl; nl] ++ py "# Title"]
  /\ skill_body [] (py "# Title" ++ [nl])
     = py "# Quick Start" ++ [nl; nl] ++ py "# Title".
Proof. split; reflexivity. Qed.

(** With content after the heading, the heading is removed. *)
Example heading_before_content_is_removed :
  quick_start_part (py "# Title" ++ [nl; nl] ++ py "Go." ++ [nl])
  = [py "# Quick Start" ++ [nl; nl] ++ py "Go."].
Proof. reflexivity. Qed.

(** The Quick Start block is there exactly when something remains after
    the strip and the removal of the heading. *)
Lemma quick_start_part_cases (ai_start_content : pystr) :
  let rest := sub_empty no_flags first_header_re (strip ai_start_content) in
  quick_start_part ai_start_content
  = if nonempty ai_start_content && nonempty rest
    then [py "# Quick Start" ++ [nl; nl] ++ rest]
    else [].
Proof.
  cbv zeta. unfold quick_start_part.
  destruct (nonempty ai_start_content); [|reflexivity].
  cbn [andb]. now destruct (nonempty _).
Qed.


(** A pattern fails at a position when its continuation fails on every
    suffix of the text that is left there. *)
Lemma star_loop_cont_none (R : Type) (greedy : bool)
      (body : pystr -> pystr -> option pystr -> cont R -> option R)
      (k : cont R) (aft : pystr) :
  (forall bef a g (k' : cont R),
      (forall b a' g', (exists pre, a = pre ++ a') -> k' b a' g' = None) ->
      body bef a g k' = None) ->
  (forall b a g', (exists pre, aft = pre ++ a) -> k b a g' = None) ->
  forall n bef a g,
    (exists pre, aft = pre ++ a) -> star_loop greedy body k n bef a g = None.
Proof.
  intros Hbody Hk. induction n as [|n IHn]; intros bef a g Hs;
    cbn [star_loop]; [now apply Hk|].
  cbv zeta.
  match goal with
  | |- context [body bef a g ?again] =>
      assert (Hmore : body bef a g again = None)
  end.
  { apply Hbody. intros b a0 g' [pre ->].
    destruct (length a0 <? length (pre ++ a0)); [|reflexivity].
    apply IHn. destruct Hs as [pre0 ->]. exists (pre0 ++ pre).
    now rewrite app_assoc. }
  destruct greedy.
  - rewrite Hmore. now apply Hk.
  - rewrite Hk by exact Hs. exact Hmore.
Qed.

Lemma rmatch_cont_none (fl : flags) (R : Type) (r : regex) :
  forall bef aft g (k : cont R),
    (forall b a g', (exists pre, aft = pre ++ a) -> k b a g' = None) ->
    rmatch fl r bef aft g k = None.
Proof.
  induction r as [| c | negate set | | | | r1 IH1 r2 IH2 | greedy r1 IH1
                  | r1 IH1 | r1 IH1];
    intros bef aft g k Hk; cbn [rmatch].
  - apply Hk. now exists [].
  - unfold one_char. destruct aft as [|x aft']; [reflexivity|].
    destruct (lit_match fl c x); [|reflexivity]. apply Hk. now exists [x].
  - unfold one_char. destruct aft as [|x aft']; [reflexivity|].
    destruct (set_match fl negate set x); [|reflexivity].
    apply Hk. now exists [x].
  - unfold one_char. destruct aft as [|x aft']; [reflexivity|].
    destruct (any_match fl x); [|reflexivity]. apply Hk. now exists [x].
  - destruct (at_beginning fl bef); [|reflexivity]. apply Hk. now exists [].
  - destruct (at_end fl aft); [|reflexivity]. apply Hk. now exists [].
  - apply IH1. intros b a g' [pre ->]. apply IH2.
    intros b' a' g'' [pre' ->]. apply Hk. exists (pre ++ pre').
    now rewrite app_assoc.
  - apply star_loop_cont_none with (aft := aft);
      [exact IH1 | exact Hk | now exists []].
  - assert (H1 : rmatch fl r1 bef aft g k = None) by now apply IH1.
    rewrite H1. apply Hk. now exists [].
  - apply IH1. intros b a _ Hs. now apply Hk.
Qed.

(** The header pattern ends in [\n+]: it matches nowhere in a text
    without a newline, so [re.sub] returns such a text as it is. *)
Lemma first_header_needs_newline (bef aft : pystr) :
  ~ List.In nl aft -> match_at no_flags first_header_re bef aft = None.
Proof.
  intros Hnl. unfold match_at, first_header_re.
  cbn [seq]. cbn [rmatch].
  destruct (at_beginning no_flags bef); [|reflexivity].
  unfold one_char at 1. destruct aft as [|c aft']; [reflexivity|].
  destruct (lit_match no_flags (ch "#") c); [|reflexivity].
  apply rmatch_cont_none. intros b a g [pre ->].
  unfold Plus. cbn [rmatch]. unfold one_char.
  destruct a as [|x a']; [reflexivity|].
  unfold lit_match. cbn [IGNORECASE no_flags].
  destruct (N.eqb x nl) eqn:E; [|reflexivity].
  apply N.eqb_eq in E. subst x. exfalso. apply Hnl.
  right. apply in_or_app. right. now left.
Qed.

Lemma sub_first_header_without_newline (fuel : nat) (bef aft : pystr) :
  ~ List.In nl aft -> sub_from fuel no_flags first_header_re bef aft = aft.
Proof.
  revert bef aft. induction fuel as [|fuel IH]; intros bef aft Hnl;
    [reflexivity|].
  cbn [sub_from]. rewrite first_header_needs_newline by exact Hnl.
  destruct aft as [|c aft']; [reflexivity|].
  f_equal. apply IH. intros Hin. apply Hnl. now right.
Qed.

Lemma lstrip_while_all (p : char -> bool) (a b : pystr) :
  forallb p a = true -> lstrip_while p (a ++ b) = lstrip_while p b.
Proof.
  induction a as [|x a IH]; [reflexivity|].
  cbn [forallb app lstrip_while]. intros H.
  apply andb_true_iff in H as [Hx Ha]. rewrite Hx. now apply IH.
Qed.

Lemma lstrip_while_incl (p : char -> bool) (s : pystr) (x : char) :
  List.In x (lstrip_while p s) -> List.In x s.
Proof.
  induction s as [|c s IH]; [auto|].
  cbn [lstrip_while]. destruct (p c); [right; auto | auto].
Qed.

Lemma lstrip_while_stops (p : char -> bool) (a : pystr) (c : char) :
  p c = false -> lstrip_while p (a ++ [c]) <> [].
Proof.
  intros Hc. induction a as [|x a IH]; cbn [app lstrip_while].
  - rewrite Hc. discriminate.
  - destruct (p x); [exact IH | discriminate].
Qed.

(** C6, for every text of the kind the claim describes: a heading line
    (with no newline inside it) followed only by blank lines.  The
    stripped text has no newline left, the pattern does not match, and
    the Quick Start block is emitted with the heading as its content. *)
Lemma heading_only_quick_start_always_kept (h blanks : pystr) :
  ~ List.In nl h ->
  forallb is_space blanks = true ->
  let text := ch "#" :: h ++ nl :: blanks in
  strip text <> []
  /\ quick_start_part text = [py "# Quick Start" ++ [nl; nl] ++ strip text].
Proof.
  intros Hh Hb. cbv zeta.
  set (text := ch "#" :: h ++ nl :: blanks).
  assert (Hstrip : strip text
                   = rev (lstrip_while is_space (rev h ++ [ch "#"]))).
  { unfold strip, rstrip_while, text.
    change (lstrip_while is_space (ch "#" :: h ++ nl :: blanks))
      with (ch "#" :: h ++ nl :: blanks).
    f_equal.
    change (ch "#" :: h ++ nl :: blanks)
      with ([ch "#"] ++ h ++ [nl] ++ blanks).
    rewrite !rev_app_distr. rewrite <- !app_assoc.
    rewrite lstrip_while_all by (rewrite forallb_forall in *; intros x Hx;
                                 apply Hb; now apply in_rev).
    cbn [rev app]. reflexivity. }
  assert (Hne : strip text <> []).
  { rewrite Hstrip. intros E. apply (f_equal (@rev char)) in E.
    rewrite rev_involutive in E. cbn [rev] in E.
    revert E. now apply lstrip_while_stops. }
  assert (Hnonl : ~ List.In nl (strip text)).
  { rewrite Hstrip. intros Hin. apply in_rev in Hin.
    apply lstrip_while_incl in Hin. apply in_app_iff in Hin as [Hin|Hin].
    - apply Hh. now apply in_rev.
    - destruct Hin as [E|[]]. vm_compute in E. discriminate. }
  split; [exact Hne|].
  unfold quick_start_part. cbn [nonempty text].
  unfold sub_empty. rewrite sub_first_header_without_newline by exact Hnonl.
  destruct (strip text); [congruence | reflexivity].
Qed.

(* ------------------------------------------------------------------ *)
(** * The order of the frontmatter fields *)

Lemma dict_get_in_keys (k : pystr) (d : dict) :
  List.In k (keys d) <-> dict_get k d <> None.
Proof.
  induction d as [|[k0 v0] d IH]; cbn [keys map fst dict_get List.In].
  - split; [tauto | congruence].
  - destruct (pystr_eqb k0 k) eqn:E.
    + apply pystr_eqb_eq in E. split; [discriminate | auto].
    + apply pystr_eqb_neq in E. fold (keys d). rewrite <- IH. tauto.
Qed.

Lemma keys_set_in (k1 k2 : pystr) (v : pyval) (d : dict) :
  List.In k1 (keys d) -> keys (set_in k1 k2 v d) = keys d.
Proof.
  intros H. unfold set_in. apply keys_set_present.
  now apply dict_get_in_keys.
Qed.

Lemma scan_lines_keys (lines : list pystr) (st : scan) :
  List.In (py "metadata") (keys (metadata st)) ->
  keys (metadata (scan_lines lines st)) = keys (metadata st).
Proof.
  revert st.
  induction lines as [|raw rest IH]; intros st Hin; cbn [scan_lines];
    [reflexivity|].
  cbv zeta.
  destruct (nonempty (strip raw)); cbn [negb andb].
  - destruct (startswith (ch "#") (strip raw)); cbn [negb andb].
    + destruct (truthy _); cbn [negb].
      * now rewrite IH.
      * rewrite IH; cbn [metadata]; rewrite keys_set_in; auto.
    + destruct (in_header st); cbn [negb andb].
      * now rewrite IH.
      * destruct (startswith (ch "-") (strip raw)); cbn [negb];
          [reflexivity | now rewrite IH].
  - destruct (has_lines (desc_lines st)); [reflexivity | now apply IH].
Qed.

Lemma extract_keys (content persona_name : pystr) :
  keys (extract_metadata_from_persona content persona_name)
  = [py "name"; py "description"; py "metadata"].
Proof.
  unfold extract_metadata_from_persona.
  set (st := scan_lines _ _).
  assert (Hk : keys (metadata st)
               = [py "name"; py "description"; py "metadata"]).
  { unfold st. rewrite scan_lines_keys; [reflexivity|].
    cbn. right. right. now left. }
  assert (Hd : keys (dict_set (py "description")
                       (PStr (slice_to 500 (join (py " ") (desc_lines st))))
                       (metadata st))
               = [py "name"; py "description"; py "metadata"]).
  { rewrite keys_set_present; [exact Hk|].
    apply dict_get_in_keys. rewrite Hk. right. now left. }
  destruct (search autonomy_flags autonomy_re content);
    destruct (search specialties_flags specialties_re content);
    repeat (rewrite keys_set_in); try exact Hd;
    repeat (rewrite keys_set_in); rewrite ?Hd; cbn; auto.
Qed.

(** X1. The top-level fields come out in the order name, description,
    metadata, license, compatibility, whatever the text. *)
Lemma frontmatter_key_order (content persona_name : pystr) :
  keys (skill_metadata content persona_name)
  = [py "name"; py "description"; py "metadata"; py "license";
     py "compatibility"].
Proof.
  unfold skill_metadata.
  set (md := extract_metadata_from_persona content persona_name).
  assert (Hk : keys md = [py "name"; py "description"; py "metadata"])
    by apply extract_keys.
  assert (Hl : keys (dict_set (py "license") (PStr (py "Proprietary")) md)
               = [py "name"; py "description"; py "metadata"; py "license"]).
  { rewrite keys_set_absent; [now rewrite Hk|].
    destruct (dict_get (py "license") md) eqn:E; [|reflexivity].
    assert (Hin : List.In (py "license") (keys md))
      by (apply dict_get_in_keys; congruence).
    rewrite Hk in Hin. vm_compute in Hin. intuition discriminate. }
  set (md1 := dict_set (py "license") (PStr (py "Proprietary")) md) in *.
  assert (Hc : keys (dict_set (py "compatibility")
                       (PStr (py "Designed for Loom")) md1)
               = [py "name"; py "description"; py "metadata"; py "license";
                  py "compatibility"]).
  { rewrite keys_set_absent; [now rewrite Hl|].
    destruct (dict_get (py "compatibility") md1) eqn:E; [|reflexivity].
    assert (Hin : List.In (py "compatibility") (keys md1))
      by (apply dict_get_in_keys; congruence).
    rewrite Hl in Hin. vm_compute in Hin. intuition discriminate. }
  set (md2 := dict_set (py "compatibility") _ md1) in *.
  rewrite keys_set_in.
  - rewrite keys_set_in; [exact Hc|]. rewrite Hc. cbn. auto.
  - rewrite keys_set_in; rewrite Hc; cbn; auto.
Qed.

(* ------------------------------------------------------------------ *)
(** * Further properties of the string helpers *)

Lemma lstrip_while_head (p : char -> bool) (s : pystr) (c : char) (t : pystr) :
  lstrip_while p s = c :: t -> p c = false.
Proof.
  induction s as [|x s IH]; cbn [lstrip_while]; [discriminate|].
  destruct (p x) eqn:E; [exact IH|].
  intros H. inversion H; subst. exact E.
Qed.

Lemma lstrip_while_fixed (p : char -> bool) (s : pystr) :
  match s with [] => True | c :: _ => p c = false end ->
  lstrip_while p s = s.
Proof.
  destruct s as [|c s]; [reflexivity|]. cbn [lstrip_while]. now intros ->.
Qed.

Lemma lstrip_while_idempotent (p : char -> bool) (s : pystr) :
  lstrip_while p (lstrip_while p s) = lstrip_while p s.
Proof.
  apply lstrip_while_fixed.
  destruct (lstrip_while p s) as [|c t] eqn:E; [exact I|].
  now apply lstrip_while_head in E.
Qed.

Lemma lstrip_while_suffix (p : char -> bool) (s : pystr) :
  exists pre, s = pre ++ lstrip_while p s.
Proof.
  induction s as [|x s [pre IH]]; [now exists []|].
  cbn [lstrip_while]. destruct (p x).
  - exists (x :: pre). cbn [app]. now rewrite <- IH.
  - now exists [].
Qed.

Lemma rstrip_while_prefix (p : char -> bool) (s : pystr) :
  exists suf, s = rstrip_while p s ++ suf.
Proof.
  unfold rstrip_while.
  destruct (lstrip_while_suffix p (rev s)) as [pre E].
  exists (rev pre).
  rewrite <- rev_app_distr, <- E. now rewrite rev_involutive.
Qed.

Lemma rstrip_while_incl (p : char -> bool) (s : pystr) (x : char) :
  List.In x (rstrip_while p s) -> List.In x s.
Proof.
  unfold rstrip_while. intros H. apply in_rev in H.
  apply lstrip_while_incl in H. now apply in_rev.
Qed.

Lemma strip_incl (s : pystr) (x : char) : List.In x (strip s) -> List.In x s.
Proof.
  unfold strip. intros H. apply rstrip_while_incl in H.
  now apply lstrip_while_incl in H.
Qed.

(** A stripped string does not begin with white space. *)
Lemma strip_head (s : pystr) (c : char) (t : pystr) :
  strip s = c :: t -> is_space c = false.
Proof.
  unfold strip. intros H.
  destruct (rstrip_while_prefix is_space (lstrip_while is_space s)) as [suf E].
  rewrite H in E. cbn [app] in E.
  now apply lstrip_while_head in E.
Qed.

Lemma rstrip_while_idempotent (p : char -> bool) (s : pystr) :
  rstrip_while p (rstrip_while p s) = rstrip_while p s.
Proof.
  unfold rstrip_while. rewrite rev_involutive.
  now rewrite lstrip_while_idempotent.
Qed.

(** [s.strip().strip() == s.strip()] *)
Lemma strip_idempotent (s : pystr) : strip (strip s) = strip s.
Proof.
  unfold strip at 1.
  rewrite (lstrip_while_fixed is_space (strip s)).
  - unfold strip. apply rstrip_while_idempotent.
  - destruct (strip s) as [|c t] eqn:E; [exact I|].
    now apply strip_head in E.
Qed.

Lemma split_nonempty (sep : char) (s : pystr) : split sep s <> [].
Proof.
  destruct s as [|c s]; cbn [split]; [discriminate|].
  destruct (N.eqb c sep); [discriminate|].
  destruct (split sep s); discriminate.
Qed.

(** No piece of [s.split(sep)] contains the separator. *)
Lemma split_pieces_without_sep (sep : char) (s piece : pystr) :
  List.In piece (split sep s) -> ~ List.In sep piece.
Proof.
  revert piece. induction s as [|c s IH]; intros piece; cbn [split].
  - intros [<-|[]]. auto.
  - destruct (N.eqb c sep) eqn:E.
    + intros [<-|H]; [auto | now apply IH].
    + apply N.eqb_neq in E.
      destruct (split sep s) as [|p ps] eqn:Es.
      * intros [<-|[]]. intros [H|[]]. congruence.
      * intros [<-|H].
        -- intros [H|H]; [congruence|]. apply (IH p); [now left | exact H].
        -- apply IH. now right.
Qed.

Lemma join_incl (sep : pystr) (parts : list pystr) (x : char) :
  List.In x (join sep parts) ->
  List.In x sep \/ exists p, List.In p parts /\ List.In x p.
Proof.
  induction parts as [|p ps IH]; cbn [join]; [intros []|].
  destruct ps as [|q qs].
  - intros H. right. exists p. split; [now left | exact H].
  - intros H. apply in_app_iff in H as [H|H].
    + right. exists p. split; [now left | exact H].
    + apply in_app_iff in H as [H|H]; [now left|].
      destruct (IH H) as [Hs|(r & Hr & Hx)]; [now left|].
      right. exists r. split; [now right | exact Hx].
Qed.

(* ------------------------------------------------------------------ *)
(** * Further properties of the extractor *)

(** The record the line loop starts from. *)
Lemma get_in_dict_set_other (k k1 k2 : pystr) (v : pyval) (d : dict) :
  k <> k1 -> get_in k1 k2 (dict_set k v d) = get_in k1 k2 d.
Proof.
  intros H. unfold get_in, subdict. now rewrite dict_get_set_neq.
Qed.

(** Every accumulated line is the stripped form of a non-blank line of
    the text that is not a heading. *)
Lemma scan_lines_desc_lines_from (P : pystr -> Prop) lines st :
  (forall raw, List.In raw lines ->
               nonempty (strip raw) = true ->
               startswith (ch "#") (strip raw) = false -> P (strip raw)) ->
  Forall P (desc_lines st) ->
  Forall P (desc_lines (scan_lines lines st)).
Proof.
  revert st.
  induction lines as [|raw rest IH]; intros st HP Hst; cbn [scan_lines];
    [exact Hst|].
  assert (HP' : forall r, List.In r rest ->
                          nonempty (strip r) = true ->
                          startswith (ch "#") (strip r) = false -> P (strip r))
    by (intros r Hr; apply HP; now right).
  cbv zeta.
  destruct (nonempty (strip raw)) eqn:Hne; cbn [negb andb].
  - destruct (startswith (ch "#") (strip raw)) eqn:Hh; cbn [negb andb].
    + apply IH; assumption.
    + assert (Hraw : P (strip raw)) by (apply HP; [now left | auto | auto]).
      destruct (in_header st); cbn [negb andb].
      * apply IH; [exact HP'|]. cbn [desc_lines]. apply Forall_app.
        split; [exact Hst | now constructor].
      * destruct (startswith (ch "-") (strip raw)); cbn [negb]; [exact Hst|].
        apply IH; [exact HP'|]. cbn [desc_lines]. apply Forall_app.
        split; [exact Hst | now constructor].
  - destruct (has_lines (desc_lines st)); [exact Hst | now apply IH].
Qed.

Lemma in_firstn_in {A} (n : nat) (l : list A) (x : A) :
  List.In x (firstn n l) -> List.In x l.
Proof.
  intros H. rewrite <- (firstn_skipn n l). apply in_or_app. now left.
Qed.

(** X2. The description is one line: it holds no newline, and it begins
    neither with [#] nor with white space. *)
Theorem description_is_one_line (content persona_name : pystr) :
  let d := description_of (extract_metadata_from_persona content persona_name) in
  ~ List.In nl d
  /\ match d with
     | [] => True
     | c :: _ => c <> ch "#" /\ is_space c = false
     end.
Proof.
  cbv zeta. unfold description_of. rewrite extract_description.
  set (st := scan_lines _ _).
  assert (HL : Forall (fun l => nonempty l = true
                                /\ startswith (ch "#") l = false
                                /\ ~ List.In nl l
                                /\ (forall c t, l = c :: t -> is_space c = false))
                      (desc_lines st)).
  { unfold st. apply scan_lines_desc_lines_from; [|constructor].
    intros raw Hin Hne Hh. repeat split; auto.
    - intros Hnl. apply strip_incl in Hnl.
      now apply (split_pieces_without_sep _ _ _ Hin).
    - intros c t E. now apply strip_head in E. }
  split.
  - intros Hin. unfold slice_to in Hin. apply in_firstn_in in Hin.
    apply join_incl in Hin as [Hin|(p & Hp & Hx)].
    + vm_compute in Hin. intuition discriminate.
    + rewrite Forall_forall in HL. destruct (HL p Hp) as (_ & _ & Hnl & _).
      contradiction.
  - destruct (desc_lines st) as [|l ls]; [exact I|].
    inversion HL as [|? ? (Hne & Hh & _ & Hsp) _]; subst.
    destruct l as [|c t]; [discriminate|].
    unfold slice_to. cbn [join]. destruct ls; cbn [app firstn]; split.
    + intros ->. vm_compute in Hh. discriminate.
    + now apply (Hsp c t).
    + intros ->. vm_compute in Hh. discriminate.
    + now apply (Hsp c t).
Qed.

(** Without a heading line the loop leaves the record as it is. *)
Lemma scan_lines_no_heading lines st :
  Forall (fun raw => startswith (ch "#") (strip raw) = false) lines ->
  metadata (scan_lines lines st) = metadata st.
Proof.
  intros H. revert st. induction H as [|raw rest Hraw _ IH]; intros st;
    cbn [scan_lines]; [reflexivity|].
  cbv zeta. rewrite Hraw.
  destruct (nonempty (strip raw)); cbn [negb andb].
  - destruct (in_header st); cbn [negb andb].
    + now rewrite IH.
    + destruct (startswith (ch "-") (strip raw)); cbn [negb];
        [reflexivity | now rewrite IH].
  - destruct (has_lines (desc_lines st)); [reflexivity | apply IH].
Qed.

(** The role of the record returned is the one the line loop left. *)
Lemma extract_role (content persona_name : pystr) :
  get_in (py "metadata") (py "role")
         (extract_metadata_from_persona content persona_name)
  = get_in (py "metadata") (py "role")
      (metadata
         (scan_lines (split nl (strip content))
            (Scan [(py "name", PStr persona_name);
                   (py "description", PStr []);
                   (py "metadata", PDict [])] [] true))).
Proof.
  unfold extract_metadata_from_persona.
  destruct (search specialties_flags specialties_re content);
    destruct (search autonomy_flags autonomy_re content);
    repeat (rewrite get_in_set_in_neq by py_neq);
    now rewrite get_in_dict_set_other by py_neq.
Qed.

(** X3. A text none of whose lines is a heading gets no role. *)
Theorem no_heading_no_role (content persona_name : pystr) :
  Forall (fun raw => startswith (ch "#") (strip raw) = false)
         (split nl (strip content)) ->
  get_in (py "metadata") (py "role")
         (extract_metadata_from_persona content persona_name) = None.
Proof.
  intros H. rewrite extract_role, scan_lines_no_heading by exact H.
  reflexivity.
Qed.

Lemma no_heading_no_role_witness :
  get_in (py "metadata") (py "role")
         (extract_metadata_from_persona
            (py "Helps with data." ++ [nl] ++ py "Every day.") (py "p"))
  = None.
Proof.
  apply (no_heading_no_role
           (py "Helps with data." ++ [nl] ++ py "Every day.") (py "p")).
  vm_compute. repeat constructor.
Defined.

(** Once a role with text is set, later headings do not replace it. *)
Lemma scan_lines_keeps_role lines st :
  truthy (get_in (py "metadata") (py "role") (metadata st)) = true ->
  get_in (py "metadata") (py "role") (metadata (scan_lines lines st))
  = get_in (py "metadata") (py "role") (metadata st).
Proof.
  revert st. induction lines as [|raw rest IH]; intros st Hr;
    cbn [scan_lines]; [reflexivity|].
  cbv zeta.
  destruct (nonempty (strip raw)); cbn [negb andb].
  - destruct (startswith (ch "#") (strip raw)); cbn [negb andb].
    + rewrite Hr. cbn [negb]. rewrite IH by exact Hr. reflexivity.
    + destruct (in_header st); cbn [negb andb].
      * now rewrite IH.
      * destruct (startswith (ch "-") (strip raw)); cbn [negb];
          [reflexivity | now rewrite IH].
  - destruct (has_lines (desc_lines st)); [reflexivity | now apply IH].
Qed.

(** X4. When the text opens with a heading that has text after its [#]
    marks, that text, stripped, is the role, whatever headings follow. *)
Theorem role_is_first_heading
        (content persona_name first : pystr) (rest : list pystr) :
  split nl (strip content) = first :: rest ->
  startswith (ch "#") (strip first) = true ->
  nonempty (strip (lstrip_char (ch "#") (strip first))) = true ->
  get_in (py "metadata") (py "role")
         (extract_metadata_from_persona content persona_name)
  = Some (PStr (strip (lstrip_char (ch "#") (strip first)))).
Proof.
  intros Hs Hh Ht. rewrite extract_role, Hs. cbn [scan_lines]. cbv zeta.
  assert (Hne : nonempty (strip first) = true)
    by (destruct (strip first); [discriminate | reflexivity]).
  rewrite Hne, Hh. cbn [negb metadata].
  change (truthy (get_in (py "metadata") (py "role")
                    [(py "name", PStr persona_name);
                     (py "description", PStr []);
                     (py "metadata", PDict [])])) with false.
  cbn [negb]. rewrite scan_lines_keeps_role; cbn [metadata].
  - apply get_in_set_in_eq.
  - rewrite get_in_set_in_eq. exact Ht.
Qed.

Lemma role_is_first_heading_witness :
  get_in (py "metadata") (py "role")
         (extract_metadata_from_persona
            (py "## Data Analyst " ++ [nl] ++ py "# Other" ++ [nl]) (py "p"))
  = Some (PStr (strip (lstrip_char (ch "#") (strip (py "## Data Analyst "))))).
Proof.
  apply (@role_is_first_heading
           (py "## Data Analyst " ++ [nl] ++ py "# Other" ++ [nl]) (py "p")
           (py "## Data Analyst ") [py "# Other"]);
    vm_compute; reflexivity.
Defined.

(** Headings set nothing but the role. *)
Lemma scan_lines_keeps_inner_key (k : pystr) lines st :
  py "role" <> k ->
  get_in (py "metadata") k (metadata (scan_lines lines st))
  = get_in (py "metadata") k (metadata st).
Proof.
  intros Hk. revert st. induction lines as [|raw rest IH]; intros st;
    cbn [scan_lines]; [reflexivity|].
  cbv zeta.
  destruct (nonempty (strip raw)); cbn [negb andb].
  - destruct (startswith (ch "#") (strip raw)); cbn [negb andb].
    + rewrite IH. cbn [metadata].
      destruct (truthy _); cbn [negb]; [reflexivity|].
      now apply get_in_set_in_neq.
    + destruct (in_header st); cbn [negb andb].
      * now rewrite IH.
      * destruct (startswith (ch "-") (strip raw)); cbn [negb];
          [reflexivity | now rewrite IH].
  - destruct (has_lines (desc_lines st)); [reflexivity | apply IH].
Qed.

(** The autonomy level is there exactly when the pattern is found, and
    is then the lower-cased group. *)
Lemma extract_autonomy_level (content persona_name : pystr) :
  get_in (py "metadata") (py "autonomy_level")
         (extract_metadata_from_persona content persona_name)
  = match search autonomy_flags autonomy_re content with
    | Some m => Some (PStr (lower (group1 m)))
    | None => None
    end.
Proof.
  unfold extract_metadata_from_persona.
  destruct (search specialties_flags specialties_re content);
    destruct (search autonomy_flags autonomy_re content);
    repeat (rewrite get_in_set_in_neq by py_neq);
    try apply get_in_set_in_eq;
    rewrite get_in_dict_set_other by py_neq;
    now rewrite scan_lines_keeps_inner_key by py_neq.
Qed.

(** The specialties are there exactly when the pattern is found, and
    are then the stripped pieces of the group between commas. *)
Lemma extract_specialties (content persona_name : pystr) :
  get_in (py "metadata") (py "specialties")
         (extract_metadata_from_persona content persona_name)
  = match search specialties_flags specialties_re content with
    | Some m => Some (PList (map strip (split (ch ",") (group1 m))))
    | None => None
    end.
Proof.
  unfold extract_metadata_from_persona.
  destruct (search specialties_flags specialties_re content);
    destruct (search autonomy_flags autonomy_re content);
    try apply get_in_set_in_eq;
    repeat (rewrite get_in_set_in_neq by py_neq);
    rewrite get_in_dict_set_other by py_neq;
    now rewrite scan_lines_keeps_inner_key by py_neq.
Qed.

(* ------------------------------------------------------------------ *)
(** * The steps of [create_skill_md]

    For the proofs the body of [create_skill_md] is read in its three
    stages: reading and writing, moving the additional files, deleting
    the old files. *)

(** "Move additional files to references/" *)
Definition move_additional_files (plat : platform) (persona_dir : path)
  : M unit :=
  children <- iterdir persona_dir ;;
  additional_files <- filter_m is_additional children ;;
  match additional_files with
  | _ :: _ =>
      mkdir_exist_ok (persona_dir // references) ;;
      for_each additional_files
               (move_to_references plat (persona_dir // references))
  | [] => ret tt
  end.

(** "Delete old files" *)
Definition delete_old_files (persona_dir : path) : M unit :=
  ex <- exists_ (persona_dir // PERSONA_md) ;;
  (if ex then unlink (persona_dir // PERSONA_md) ;; print MsgDeletedPersona
   else ret tt) ;;
  ex <- exists_ (persona_dir // AI_START_HERE_md) ;;
  (if ex then unlink (persona_dir // AI_START_HERE_md) ;;
              print MsgDeletedAIStart
   else ret tt).

(** The text read from AI_START_HERE.md: empty when the file is absent. *)
Definition ai_start_text (n : option node) : pystr :=
  match n with Some (File a) => a | _ => [] end.

Lemma bind_assoc_run {A B C} (m : M A) (f : A -> M B) (g : B -> M C) w :
  bind (bind m f) g w = bind m (fun x => bind (f x) g) w.
Proof. unfold bind. now destruct (m w) as [[a|e] w1]. Qed.

Lemma lookup_child_parent_is_dir p x n c :
  lookup (p // x) n = Some c -> node_is_dir (lookup p n) = true.
Proof.
  rewrite lookup_child. destruct (lookup p n) as [[data|es]|];
    [discriminate | reflexivity | discriminate].
Qed.

Lemma bind_run_return {A B} (m : M A) (k : A -> M B) w a w1 :
  m w = (Return a, w1) -> bind m k w = k a w1.
Proof. intros H. unfold bind. now rewrite H. Qed.

Lemma bind_run_raise {A B} (m : M A) (k : A -> M B) w e w1 :
  m w = (Raise e, w1) -> bind m k w = (Raise e, w1).
Proof. intros H. unfold bind. now rewrite H. Qed.

Lemma bind_ext_run {A B} (m : M A) (f g : A -> M B) w :
  (forall a w1, f a w1 = g a w1) -> bind m f w = bind m g w.
Proof. intros H. unfold bind. destruct (m w) as [[a|e] w1]; auto. Qed.

Lemma exists_run p w : exists_ p w = (Return (is_some (lookup p (tree w))), w).
Proof. reflexivity. Qed.

Lemma read_text_run p w :
  read_text p w = match lookup p (tree w) with
                  | Some (File data) => (Return data, w)
                  | Some (Dir _) => (Raise IsADirectoryError, w)
                  | None => (Raise FileNotFoundError, w)
                  end.
Proof.
  unfold read_text, bind, get_node.
  now destruct (lookup p (tree w)) as [[data|es]|].
Qed.

Lemma write_text_run p data w :
  write_text p data w =
  match lookup p (tree w) with
  | Some (Dir _) => (Raise IsADirectoryError, w)
  | _ => if node_is_dir (lookup (parent p) (tree w))
         then (Return tt,
               World (update p (fun _ => Some (File data)) (tree w)) (stdout w))
         else (Raise FileNotFoundError, w)
  end.
Proof.
  unfold write_text, bind, get_node.
  destruct (lookup p (tree w)) as [[old|es]|];
    now destruct (lookup (parent p) (tree w)) as [[x|pes]|].
Qed.

(** The three stages in sequence are the tail of [create_skill_md]. *)
Lemma stages_in_sequence (plat : platform) (persona_dir : path) (w : world) :
  (children <- iterdir persona_dir ;;
   additional_files <- filter_m is_additional children ;;
   (match additional_files with
    | _ :: _ =>
        mkdir_exist_ok (persona_dir // references) ;;
        for_each additional_files
                 (move_to_references plat (persona_dir // references))
    | [] => ret tt
    end) ;;
   ex <- exists_ (persona_dir // PERSONA_md) ;;
   (if ex then unlink (persona_dir // PERSONA_md) ;; print MsgDeletedPersona
    else ret tt) ;;
   ex <- exists_ (persona_dir // AI_START_HERE_md) ;;
   (if ex then unlink (persona_dir // AI_START_HERE_md) ;;
               print MsgDeletedAIStart
    else ret tt) ;;
   ret true) w
  = (move_additional_files plat persona_dir ;;
     delete_old_files persona_dir ;;
     ret true) w.
Proof.
  unfold move_additional_files, delete_old_files.
  rewrite bind_assoc_run. apply bind_ext_run. intros children w1.
  rewrite bind_assoc_run. apply bind_ext_run. intros additional w2.
  apply bind_ext_run. intros _ w3.
  rewrite bind_assoc_run. apply bind_ext_run. intros ex w4.
  rewrite bind_assoc_run. apply bind_ext_run. intros _ w5.
  rewrite bind_assoc_run. reflexivity.
Qed.

(** [create_skill_md], stage by stage. *)
Lemma create_skill_md_run
      (yaml_dump : dict -> pystr) (plat : platform) (persona_dir : path)
      (w : world) :
  create_skill_md yaml_dump plat persona_dir w =
  match lookup (persona_dir // PERSONA_md) (tree w) with
  | None =>
      (Return false, World (tree w) (stdout w ++ [MsgNoPersona persona_dir]))
  | Some (Dir _) => (Raise IsADirectoryError, w)
  | Some (File persona_content) =>
      match lookup (persona_dir // AI_START_HERE_md) (tree w),
            lookup (persona_dir // SKILL_md) (tree w) with
      | Some (Dir _), _ => (Raise IsADirectoryError, w)
      | _, Some (Dir _) => (Raise IsADirectoryError, w)
      | ai, _ =>
          (move_additional_files plat persona_dir ;;
           delete_old_files persona_dir ;;
           ret true)
            (World
               (update (persona_dir // SKILL_md)
                  (fun _ => Some (File (skill_md_text yaml_dump persona_content
                                          (ai_start_text ai)
                                          (name persona_dir))))
                  (tree w))
               (stdout w ++ [MsgCreated]))
      end
  end.
Proof.
  unfold create_skill_md.
  erewrite bind_run_return by apply exists_run.
  destruct (lookup (persona_dir // PERSONA_md) (tree w)) as [[pc|pes]|] eqn:HP;
    cbn [is_some negb].
  2: { apply bind_run_raise. now rewrite read_text_run, HP. }
  2: { reflexivity. }
  assert (Hd : node_is_dir (lookup persona_dir (tree w)) = true)
    by (eapply lookup_child_parent_is_dir; exact HP).
  erewrite bind_run_return by (rewrite read_text_run, HP; reflexivity).
  erewrite bind_run_return by apply exists_run.
  destruct (lookup (persona_dir // AI_START_HERE_md) (tree w))
    as [[a|aes]|] eqn:HA; cbn [is_some].
  - erewrite bind_run_return by (rewrite read_text_run, HA; reflexivity).
    destruct (lookup (persona_dir // SKILL_md) (tree w)) as [[x|ses]|] eqn:HS.
    + erewrite bind_run_return
        by (rewrite write_text_run, HS, parent_child, Hd; reflexivity).
      erewrite bind_run_return by reflexivity.
      apply stages_in_sequence.
    + apply bind_run_raise. now rewrite write_text_run, HS.
    + erewrite bind_run_return
        by (rewrite write_text_run, HS, parent_child, Hd; reflexivity).
      erewrite bind_run_return by reflexivity.
      apply stages_in_sequence.
  - erewrite bind_run_raise by (now rewrite read_text_run, HA).
    now destruct (lookup (persona_dir // SKILL_md) (tree w)) as [[x|ses]|].
  - erewrite bind_run_return by reflexivity.
    destruct (lookup (persona_dir // SKILL_md) (tree w)) as [[x|ses]|] eqn:HS.
    + erewrite bind_run_return
        by (rewrite write_text_run, HS, parent_child, Hd; reflexivity).
      erewrite bind_run_return by reflexivity.
      apply stages_in_sequence.
    + apply bind_run_raise. now rewrite write_text_run, HS.
    + erewrite bind_run_return
        by (rewrite write_text_run, HS, parent_child, Hd; reflexivity).
      erewrite bind_run_return by reflexivity.
      apply stages_in_sequence.
Qed.

Lemma iterdir_run p w :
  iterdir p w = match lookup p (tree w) with
                | Some (Dir es) => (Return (map (fun e => p // fst e) es), w)
                | Some (File _) => (Raise NotADirectoryError, w)
                | None => (Raise FileNotFoundError, w)
                end.
Proof.
  unfold iterdir, bind, get_node.
  now destruct (lookup p (tree w)) as [[data|es]|].
Qed.

(** The files the second stage moves: the regular files of the
    directory other than the three reserved names. *)
Definition additional_files_of (persona_dir : path) (t : node) : list path :=
  match lookup persona_dir t with
  | Some (Dir es) =>
      filter (fun f => node_is_file (lookup f t)
                       && negb (name_in (name f) excluded_names))
             (map (fun e => persona_dir // fst e) es)
  | _ => []
  end.

Lemma move_additional_files_run plat persona_dir w :
  node_is_dir (lookup persona_dir (tree w)) = true ->
  move_additional_files plat persona_dir w =
  match additional_files_of persona_dir (tree w) with
  | _ :: _ =>
      (mkdir_exist_ok (persona_dir // references) ;;
       for_each (additional_files_of persona_dir (tree w))
                (move_to_references plat (persona_dir // references))) w
  | [] => (Return tt, w)
  end.
Proof.
  intros Hd. unfold move_additional_files, additional_files_of.
  destruct (lookup persona_dir (tree w)) as [[x|es]|] eqn:E; try discriminate.
  erewrite bind_run_return by (rewrite iterdir_run, E; reflexivity).
  erewrite bind_run_return by apply filter_m_is_additional.
  now destruct (filter _ _).
Qed.

Lemma additional_files_of_spec persona_dir t f :
  List.In f (additional_files_of persona_dir t) ->
  exists x, f = persona_dir // x
            /\ name_in x excluded_names = false
            /\ node_is_file (lookup f t) = true.
Proof.
  unfold additional_files_of.
  destruct (lookup persona_dir t) as [[d|es]|]; try (intros []).
  intros Hin. apply filter_In in Hin as [Hin Hc].
  apply in_map_iff in Hin as (e & Hf & _). subst f.
  apply andb_true_iff in Hc as [Hfile Hc]. rewrite name_child in Hc.
  exists (fst e). repeat split; auto.
  now destruct (name_in (fst e) excluded_names).
Qed.

Lemma entry_in x es n : entry x es = Some n -> List.In (x, n) es.
Proof.
  induction es as [|[y m] es IH]; cbn [entry]; [discriminate|].
  destruct (pystr_eqb y x) eqn:E.
  - apply pystr_eqb_eq in E. subst y. intros H. inversion H. now left.
  - intros H. right. auto.
Qed.

(** A regular file of the directory whose name is not reserved is one
    of the additional files. *)
Lemma additional_files_of_complete persona_dir t x data :
  lookup (persona_dir // x) t = Some (File data) ->
  name_in x excluded_names = false ->
  List.In (persona_dir // x) (additional_files_of persona_dir t).
Proof.
  intros Hx Hn. unfold additional_files_of.
  pose proof Hx as Hx'. rewrite lookup_child in Hx'.
  destruct (lookup persona_dir t) as [[d|es]|]; try discriminate.
  apply filter_In. split.
  - apply in_map_iff. exists (x, File data). split; [reflexivity|].
    now apply entry_in.
  - rewrite Hx, name_child, Hn. reflexivity.
Qed.

(** What the second stage leaves alone. *)
Lemma keeps_move_additional_files q plat persona_dir :
  (forall x, name_in x excluded_names = false ->
             untouched_by q (persona_dir // x)) ->
  (forall x, untouched_by q (persona_dir // references // x)) ->
  untouched_by q (persona_dir // references) ->
  keeps q (move_additional_files plat persona_dir).
Proof.
  intros Hfile Hdest Href w.
  destruct (node_is_dir (lookup persona_dir (tree w))) eqn:Hd.
  - rewrite move_additional_files_run by exact Hd.
    destruct (additional_files_of persona_dir (tree w)) as [|f fs] eqn:E;
      [reflexivity|].
    rewrite <- E.
    apply keeps_bind; [now apply keeps_mkdir|].
    intros _. apply keeps_for_each. apply Forall_forall. intros g Hg.
    apply additional_files_of_spec in Hg as (x & -> & Hx & _).
    apply keeps_move_to_references; [now apply Hfile|].
    rewrite name_child. apply Hdest.
  - unfold move_additional_files.
    destruct (lookup persona_dir (tree w)) as [[x|es]|] eqn:E;
      try discriminate;
      (erewrite bind_run_raise by (rewrite iterdir_run, E; reflexivity));
      reflexivity.
Qed.

Lemma keeps_exists q p : keeps q (exists_ p).
Proof. intros w; reflexivity. Qed.

Lemma keeps_delete_old_files q persona_dir :
  untouched_by q (persona_dir // PERSONA_md) ->
  untouched_by q (persona_dir // AI_START_HERE_md) ->
  keeps q (delete_old_files persona_dir).
Proof.
  intros HP HA. unfold delete_old_files.
  apply keeps_bind; [apply keeps_exists|]. intros ex.
  apply keeps_bind.
  { destruct ex; [|apply keeps_ret].
    apply keeps_bind; [now apply keeps_unlink | intros _; apply keeps_print]. }
  intros _. apply keeps_bind; [apply keeps_exists|]. intros ex'.
  destruct ex'; [|apply keeps_ret].
  apply keeps_bind; [now apply keeps_unlink | intros _; apply keeps_print].
Qed.

Lemma untouched_sibling d a b : a <> b -> untouched_by (d // b) (d // a).
Proof. intros H f t. now apply lookup_update_sibling. Qed.

Lemma untouched_nephew d a b c :
  a <> b -> untouched_by (d // b) (d // a // c).
Proof. intros H f t. now apply lookup_update_nephew. Qed.

Lemma untouched_uncle d a b c :
  a <> b -> untouched_by (d // b // c) (d // a).
Proof.
  intros H f t. unfold child. rewrite <- app_assoc. cbn [app].
  now apply lookup_update_diverge.
Qed.

Lemma untouched_cousin d r x y :
  x <> y -> untouched_by (d // r // y) (d // r // x).
Proof. intros H. now apply untouched_sibling. Qed.

Lemma not_excluded_neq x y :
  name_in x excluded_names = false -> List.In y excluded_names -> x <> y.
Proof.
  intros Hx Hy ->. unfold name_in in Hx.
  assert (H : existsb (pystr_eqb y) excluded_names = true).
  { apply existsb_exists. exists y. split; [exact Hy | apply pystr_eqb_refl]. }
  congruence.
Qed.

(** The third stage always completes when neither old file is a
    directory; both are then gone and nothing else has changed. *)
Lemma delete_old_files_run persona_dir w :
  node_is_dir (lookup (persona_dir // PERSONA_md) (tree w)) = false ->
  node_is_dir (lookup (persona_dir // AI_START_HERE_md) (tree w)) = false ->
  exists w',
    delete_old_files persona_dir w = (Return tt, w')
    /\ lookup (persona_dir // PERSONA_md) (tree w') = None
    /\ lookup (persona_dir // AI_START_HERE_md) (tree w') = None
    /\ forall q, untouched_by q (persona_dir // PERSONA_md) ->
                 untouched_by q (persona_dir // AI_START_HERE_md) ->
                 lookup q (tree w') = lookup q (tree w).
Proof.
  intros HP HA.
  assert (Hstep : forall p m w0,
             node_is_dir (lookup p (tree w0)) = false -> p <> [] ->
             exists w1,
               (if is_some (lookup p (tree w0)) then unlink p ;; print m
                else ret tt) w0 = (Return tt, w1)
               /\ lookup p (tree w1) = None
               /\ forall q, untouched_by q p ->
                            lookup q (tree w1) = lookup q (tree w0)).
  { intros p m w0 Hnd Hne.
    destruct (lookup p (tree w0)) as [[data|es]|] eqn:E; try discriminate;
      cbn [is_some].
    - eexists. split.
      + unfold unlink, bind, get_node. rewrite E. reflexivity.
      + cbn [tree]. split; [now apply lookup_update_del|].
        intros q Hq. apply Hq.
    - exists w0. repeat split; auto. }
  destruct (Hstep (persona_dir // PERSONA_md) MsgDeletedPersona w HP
                  (child_nonempty _ _)) as (w1 & R1 & N1 & K1).
  assert (HA1 : node_is_dir (lookup (persona_dir // AI_START_HERE_md) (tree w1))
                = false).
  { rewrite K1; [exact HA|]. apply untouched_sibling. py_neq. }
  destruct (Hstep (persona_dir // AI_START_HERE_md) MsgDeletedAIStart w1 HA1
                  (child_nonempty _ _)) as (w2 & R2 & N2 & K2).
  exists w2. split; [|split; [|split]].
  - unfold delete_old_files.
    erewrite bind_run_return by apply exists_run.
    erewrite bind_run_return by exact R1.
    erewrite bind_run_return by apply exists_run.
    exact R2.
  - rewrite K2; [exact N1|]. apply untouched_sibling. py_neq.
  - exact N2.
  - intros q Hq1 Hq2. rewrite K2, K1; auto.
Qed.

Lemma delete_old_files_inv persona_dir w u w' :
  delete_old_files persona_dir w = (Return u, w') ->
  lookup (persona_dir // PERSONA_md) (tree w') = None
  /\ lookup (persona_dir // AI_START_HERE_md) (tree w') = None
  /\ forall q, untouched_by q (persona_dir // PERSONA_md) ->
               untouched_by q (persona_dir // AI_START_HERE_md) ->
               lookup q (tree w') = lookup q (tree w).
Proof.
  unfold delete_old_files. intros H.
  apply bind_return_inv in H as (ex & w0 & He & H).
  apply exists_inv in He as [-> ->].
  apply bind_return_inv in H as (u1 & w1 & H1 & H).
  apply unlink_if_exists_inv in H1 as [N1 K1]; [|apply child_nonempty].
  apply bind_return_inv in H as (ex2 & w2 & He & H).
  apply exists_inv in He as [-> ->].
  apply unlink_if_exists_inv in H as [N2 K2]; [|apply child_nonempty].
  split; [|split].
  - rewrite K2; [exact N1|]. apply untouched_sibling. py_neq.
  - exact N2.
  - intros q Hq1 Hq2. rewrite K2, K1; auto.
Qed.

(* ------------------------------------------------------------------ *)
(** * Further properties of [create_skill_md] *)

(** X8. When PERSONA.md, AI_START_HERE.md or SKILL.md is a directory (and
    PERSONA.md exists), the migration raises IsADirectoryError before
    anything is written or printed. *)
Theorem directory_in_place_of_a_file_raises
        (yaml_dump : dict -> pystr) (plat : platform)
        (persona_dir : path) (w : world) :
  lookup (persona_dir // PERSONA_md) (tree w) <> None ->
  node_is_dir (lookup (persona_dir // PERSONA_md) (tree w)) = true
  \/ node_is_dir (lookup (persona_dir // AI_START_HERE_md) (tree w)) = true
  \/ node_is_dir (lookup (persona_dir // SKILL_md) (tree w)) = true ->
  create_skill_md yaml_dump plat persona_dir w = (Raise IsADirectoryError, w).
Proof.
  intros Hex Hdir. rewrite create_skill_md_run.
  destruct (lookup (persona_dir // PERSONA_md) (tree w)) as [[pc|pes]|];
    [| reflexivity | congruence].
  destruct (lookup (persona_dir // AI_START_HERE_md) (tree w)) as [[a|aes]|];
    destruct (lookup (persona_dir // SKILL_md) (tree w)) as [[s|ses]|];
    try reflexivity; cbn in Hdir; intuition discriminate.
Qed.

Definition skill_dir_world : world :=
  World (Dir [(py "personas",
               Dir [(py "org",
                     Dir [(py "bob",
                           Dir [(py "PERSONA.md", File scenario_a);
                                (py "SKILL.md", Dir [])])])])]) [].

Lemma directory_in_place_of_a_file_raises_witness :
  create_skill_md plain_dump Posix bob skill_dir_world
  = (Raise IsADirectoryError, skill_dir_world).
Proof.
  apply (directory_in_place_of_a_file_raises plain_dump Posix bob
                                             skill_dir_world).
  - vm_compute. discriminate.
  - right. right. vm_compute. reflexivity.
Defined.

(** X7. The migration is not idempotent: after it has returned True, a
    second call on the same directory finds no PERSONA.md and returns
    False, changing nothing. *)
Theorem second_run_is_skipped
        (yaml_dump : dict -> pystr) (plat : platform)
        (persona_dir : path) (w w' : world) :
  create_skill_md yaml_dump plat persona_dir w = (Return true, w') ->
  create_skill_md yaml_dump plat persona_dir w'
  = (Return false, World (tree w') (stdout w' ++ [MsgNoPersona persona_dir])).
Proof.
  intros H.
  assert (HN : lookup (persona_dir // PERSONA_md) (tree w') = None).
  { rewrite create_skill_md_run in H.
    destruct (lookup (persona_dir // PERSONA_md) (tree w)) as [[pc|pes]|];
      try discriminate.
    destruct (lookup (persona_dir // AI_START_HERE_md) (tree w)) as [[a|aes]|];
      destruct (lookup (persona_dir // SKILL_md) (tree w)) as [[s|ses]|];
      try discriminate;
      apply bind_return_inv in H as (u & w2 & _ & H);
      apply bind_return_inv in H as (u' & w3 & Hd & H);
      apply delete_old_files_inv in Hd as (N & _ & _);
      cbv [ret] in H; inversion H; subst; exact N. }
  rewrite create_skill_md_run, HN. reflexivity.
Qed.

Lemma second_run_is_skipped_witness :
  let w' := snd (create_skill_md plain_dump Posix bob demo_world) in
  create_skill_md plain_dump Posix bob w'
  = (Return false, World (tree w') (stdout w' ++ [MsgNoPersona bob])).
Proof.
  apply (second_run_is_skipped plain_dump Posix bob demo_world).
  vm_compute. reflexivity.
Defined.

Lemma untouched_diverging r a b p' q' :
  a <> b -> untouched_by (r ++ b :: q') (r ++ a :: p').
Proof. intros H f t. now apply lookup_update_diverge. Qed.

Lemma diverging_child r a d' x : (r ++ a :: d') // x = r ++ a :: (d' ++ [x]).
Proof. unfold child. now rewrite <- app_assoc. Qed.

(** Nothing that branches off the directory's path is changed. *)
Lemma keeps_create_skill_md_outside
      (yaml_dump : dict -> pystr) (plat : platform)
      (r : path) (a b : pystr) (d' q' : path) :
  a <> b ->
  keeps (r ++ b :: q') (create_skill_md yaml_dump plat (r ++ a :: d')).
Proof.
  intros Hab w.
  set (d := r ++ a :: d'). set (q := r ++ b :: q').
  assert (Hu1 : forall x, untouched_by q (d // x)).
  { intros x. unfold d, q. rewrite diverging_child.
    now apply untouched_diverging. }
  assert (Hu2 : forall x y, untouched_by q (d // x // y)).
  { intros x y. unfold d, q. rewrite !diverging_child.
    now apply untouched_diverging. }
  rewrite create_skill_md_run.
  destruct (lookup (d // PERSONA_md) (tree w)) as [[pc|pes]|];
    [| reflexivity | reflexivity].
  assert (Hk : forall W,
             lookup q (tree (snd ((move_additional_files plat d ;;
                                   delete_old_files d ;; ret true) W)))
             = lookup q (tree W)).
  { apply keeps_bind.
    - apply keeps_move_additional_files; auto.
    - intros _. apply keeps_bind; [|intros _; apply keeps_ret].
      apply keeps_delete_old_files; auto. }
  destruct (lookup (d // AI_START_HERE_md) (tree w)) as [[x|aes]|];
    destruct (lookup (d // SKILL_md) (tree w)) as [[s|ses]|];
    try reflexivity; rewrite Hk; cbn [tree]; apply Hu1.
Qed.

(** X9. The migration of a directory stays inside it: whatever the outcome
    (True, False or an exception), every path that branches off the
    directory's own path holds afterwards what it held before. *)
Theorem migration_stays_inside_directory
        (yaml_dump : dict -> pystr) (plat : platform)
        (r : path) (a b : pystr) (d' q' : path) (w : world) :
  a <> b ->
  lookup (r ++ b :: q')
         (tree (snd (create_skill_md yaml_dump plat (r ++ a :: d') w)))
  = lookup (r ++ b :: q') (tree w).
Proof.
  intros Hab. now apply keeps_create_skill_md_outside.
Qed.

Lemma migration_stays_inside_directory_witness :
  lookup (zed // py "readme.txt")
         (tree (snd (create_skill_md plain_dump Posix bob demo_world)))
  = lookup (zed // py "readme.txt") demo_tree.
Proof.
  apply (@migration_stays_inside_directory plain_dump Posix
           [py "personas"; py "org"] (py "bob") (py "zed") []
           [py "readme.txt"] demo_world).
  py_neq.
Defined.

(** X10. A migration that raises has not deleted the old files: PERSONA.md
    and AI_START_HERE.md are what they were, so the directory can be
    migrated again once the cause is removed. *)
Theorem failed_migration_keeps_old_files
        (yaml_dump : dict -> pystr) (plat : platform)
        (persona_dir : path) (w w' : world) (e : exn) :
  create_skill_md yaml_dump plat persona_dir w = (Raise e, w') ->
  lookup (persona_dir // PERSONA_md) (tree w')
  = lookup (persona_dir // PERSONA_md) (tree w)
  /\ lookup (persona_dir // AI_START_HERE_md) (tree w')
     = lookup (persona_dir // AI_START_HERE_md) (tree w).
Proof.
  intros H. rewrite create_skill_md_run in H.
  destruct (lookup (persona_dir // PERSONA_md) (tree w)) as [[pc|pes]|] eqn:HP;
    [| inversion H; subst; auto | discriminate].
  assert (Hmain : forall ai content,
             node_is_dir (lookup (persona_dir // AI_START_HERE_md) (tree w))
             = false ->
             (move_additional_files plat persona_dir ;;
              delete_old_files persona_dir ;; ret true)
               (World (update (persona_dir // SKILL_md)
                         (fun _ => Some (File content)) (tree w))
                      (stdout w ++ [MsgCreated])) = (Raise e, w') ->
             ai = lookup (persona_dir // AI_START_HERE_md) (tree w) ->
             lookup (persona_dir // PERSONA_md) (tree w') = Some (File pc)
             /\ lookup (persona_dir // AI_START_HERE_md) (tree w') = ai).
  { intros ai content HA Hrun ->.
    set (W := World _ _) in Hrun.
    assert (KP : keeps (persona_dir // PERSONA_md)
                       (move_additional_files plat persona_dir)).
    { apply keeps_move_additional_files.
      - intros x Hx. apply untouched_sibling.
        apply (not_excluded_neq Hx). right. now left.
      - intros x. apply untouched_nephew. py_neq.
      - apply untouched_sibling. py_neq. }
    assert (KA : keeps (persona_dir // AI_START_HERE_md)
                       (move_additional_files plat persona_dir)).
    { apply keeps_move_additional_files.
      - intros x Hx. apply untouched_sibling.
        apply (not_excluded_neq Hx). right. right. now left.
      - intros x. apply untouched_nephew. py_neq.
      - apply untouched_sibling. py_neq. }
    assert (WP : lookup (persona_dir // PERSONA_md) (tree W) = Some (File pc)).
    { unfold W. cbn [tree]. rewrite lookup_update_sibling by py_neq.
      exact HP. }
    assert (WA : lookup (persona_dir // AI_START_HERE_md) (tree W)
                 = lookup (persona_dir // AI_START_HERE_md) (tree w)).
    { unfold W. cbn [tree]. now rewrite lookup_update_sibling by py_neq. }
    destruct (move_additional_files plat persona_dir W) as [[u|e1] w2] eqn:Em.
    - exfalso.
      erewrite bind_run_return in Hrun by exact Em.
      destruct (@delete_old_files_run persona_dir w2) as (w3 & R & _).
      + rewrite (@keeps_run _ _ _ _ _ _ KP Em), WP. reflexivity.
      + rewrite (@keeps_run _ _ _ _ _ _ KA Em), WA. exact HA.
      + erewrite bind_run_return in Hrun by exact R. discriminate.
    - erewrite bind_run_raise in Hrun by exact Em.
      inversion Hrun; subst. split.
      + rewrite (@keeps_run _ _ _ _ _ _ KP Em). exact WP.
      + rewrite (@keeps_run _ _ _ _ _ _ KA Em). exact WA. }
  destruct (lookup (persona_dir // AI_START_HERE_md) (tree w))
    as [[a|aes]|] eqn:HA;
    destruct (lookup (persona_dir // SKILL_md) (tree w)) as [[s|ses]|];
    try (inversion H; subst; rewrite HP, HA; auto; fail);
    eapply Hmain; eauto.
Qed.

Lemma failed_migration_keeps_old_files_witness :
  let w' := snd (create_skill_md plain_dump Windows bob demo_world) in
  lookup (bob // PERSONA_md) (tree w') = lookup (bob // PERSONA_md) demo_tree
  /\ lookup (bob // AI_START_HERE_md) (tree w')
     = lookup (bob // AI_START_HERE_md) demo_tree.
Proof.
  apply (@failed_migration_keeps_old_files plain_dump Windows bob demo_world
           _ FileExistsError).
  vm_compute. reflexivity.
Defined.

(** X11. A regular file named [references] blocks the migration: SKILL.md is
    written, then creating the references directory raises
    FileExistsError; nothing has been moved or deleted. *)
Theorem references_file_blocks_migration
        (yaml_dump : dict -> pystr) (plat : platform)
        (persona_dir : path) (persona_content data : pystr) (w : world) :
  lookup (persona_dir // PERSONA_md) (tree w) = Some (File persona_content) ->
  node_is_dir (lookup (persona_dir // AI_START_HERE_md) (tree w)) = false ->
  node_is_dir (lookup (persona_dir // SKILL_md) (tree w)) = false ->
  lookup (persona_dir // references) (tree w) = Some (File data) ->
  create_skill_md yaml_dump plat persona_dir w
  = (Raise FileExistsError,
     World (update (persona_dir // SKILL_md)
              (fun _ => Some (File (skill_md_text yaml_dump persona_content
                                      (ai_start_text
                                         (lookup (persona_dir // AI_START_HERE_md)
                                                 (tree w)))
                                      (name persona_dir))))
              (tree w))
           (stdout w ++ [MsgCreated])).
Proof.
  intros HP HA HS HR. rewrite create_skill_md_run, HP.
  assert (Hd : node_is_dir (lookup persona_dir (tree w)) = true)
    by (eapply lookup_child_parent_is_dir; exact HP).
  assert (Hmain : forall content,
             (move_additional_files plat persona_dir ;;
              delete_old_files persona_dir ;; ret true)
               (World (update (persona_dir // SKILL_md)
                         (fun _ => Some (File content)) (tree w))
                      (stdout w ++ [MsgCreated]))
             = (Raise FileExistsError,
                World (update (persona_dir // SKILL_md)
                         (fun _ => Some (File content)) (tree w))
                      (stdout w ++ [MsgCreated]))).
  { intros content. set (W := World _ _).
    assert (HRW : lookup (persona_dir // references) (tree W)
                  = Some (File data)).
    { unfold W. cbn [tree]. rewrite lookup_update_sibling by py_neq.
      exact HR. }
    apply bind_run_raise. rewrite move_additional_files_run
      by (eapply lookup_child_parent_is_dir; exact HRW).
    assert (Hin : List.In (persona_dir // references)
                          (additional_files_of persona_dir (tree W)))
      by (eapply additional_files_of_complete; [exact HRW | reflexivity]).
    destruct (additional_files_of persona_dir (tree W)) as [|f fs];
      [destruct Hin|].
    apply bind_run_raise.
    unfold mkdir_exist_ok, bind, get_node. now rewrite HRW. }
  destruct (lookup (persona_dir // AI_START_HERE_md) (tree w)) as [[a|aes]|];
    destruct (lookup (persona_dir // SKILL_md) (tree w)) as [[s|ses]|];
    try discriminate; apply Hmain.
Qed.

Definition references_file_world : world :=
  World (Dir [(py "personas",
               Dir [(py "org",
                     Dir [(py "bob",
                           Dir [(py "PERSONA.md", File scenario_a);
                                (py "references", File (py "see also"))])])])])
        [].

Lemma references_file_blocks_migration_witness :
  create_skill_md plain_dump Posix bob references_file_world
  = (Raise FileExistsError,
     World (update (bob // SKILL_md)
              (fun _ => Some (File (skill_md_text plain_dump scenario_a
                                      (ai_start_text
                                         (lookup (bob // AI_START_HERE_md)
                                                 (tree references_file_world)))
                                      (name bob))))
              (tree references_file_world))
           (stdout references_file_world ++ [MsgCreated])).
Proof.
  apply (@references_file_blocks_migration plain_dump Posix bob scenario_a
           (py "see also") references_file_world);
    vm_compute; reflexivity.
Defined.

(** One successful move, read backwards. *)
Lemma move_to_references_inv plat persona_dir y w u w1 :
  move_to_references plat (persona_dir // references) (persona_dir // y) w
  = (Return u, w1) ->
  exists n,
    lookup (persona_dir // y) (tree w) = Some n
    /\ y <> references
    /\ node_is_dir (lookup (persona_dir // references) (tree w)) = true
    /\ tree w1 = update (persona_dir // references // y) (fun _ => Some n)
                   (update (persona_dir // y) (fun _ => None) (tree w)).
Proof.
  unfold move_to_references. rewrite name_child. intros H.
  apply bind_return_inv in H as (u1 & w0 & Hr & Hp).
  apply print_inv in Hp. subst w1. cbn [tree].
  unfold rename in Hr. unfold bind at 1, get_node at 1 in Hr.
  destruct (lookup (persona_dir // y) (tree w)) as [n|] eqn:Es;
    [|discriminate].
  unfold bind at 1, get_node at 1 in Hr. rewrite parent_child in Hr.
  destruct (lookup (persona_dir // references) (tree w)) as [[x|es]|] eqn:Er;
    try discriminate.
  assert (Hpre : is_prefix (persona_dir // y) (persona_dir // references // y)
                 = pystr_eqb y references).
  { unfold child. rewrite <- app_assoc, is_prefix_app. cbn [app is_prefix].
    apply andb_true_r. }
  assert (Hpre' : is_prefix (persona_dir // references // y) (persona_dir // y)
                  = false).
  { unfold child. rewrite <- app_assoc, is_prefix_app. cbn [app is_prefix].
    apply andb_false_r. }
  rewrite Hpre, Hpre' in Hr.
  destruct (pystr_eqb y references) eqn:Ey; [discriminate|].
  apply pystr_eqb_neq in Ey.
  assert (Hmove : forall W, move (persona_dir // y)
                                 (persona_dir // references // y) n w
                            = (Return tt, W) ->
                            tree W = update (persona_dir // references // y)
                                       (fun _ => Some n)
                                       (update (persona_dir // y)
                                          (fun _ => None) (tree w))).
  { intros W HW. cbv [move bind modify] in HW. inversion HW. reflexivity. }
  exists n. repeat split; auto.
  unfold bind at 1, get_node at 1 in Hr.
  destruct (lookup (persona_dir // references // y) (tree w)) as [old|].
  - destruct plat; [|discriminate].
    destruct n as [c|ces], old as [oc|[|oe oes]]; try discriminate;
      destruct u1; now apply Hmove.
  - destruct u1. now apply Hmove.
Qed.

Lemma child_inj p x y : p // x = p // y -> x = y.
Proof. unfold child. intros H. now apply app_inv_head in H; inversion H. Qed.

Section MovedFile.

Variable plat : platform.
Variable persona_dir : path.
Variable x : pystr.
Variable data : pystr.
Hypothesis x_not_references : x <> references.

(** The file is in references/ and no longer in the directory. *)
Definition moved (t : node) : Prop :=
  lookup (persona_dir // references // x) t = Some (File data)
  /\ lookup (persona_dir // x) t = None.

Lemma moved_stays (l : list path) : forall w w',
  Forall (fun f => exists y, f = persona_dir // y) l ->
  for_each l (move_to_references plat (persona_dir // references)) w
  = (Return tt, w') ->
  moved (tree w) -> moved (tree w').
Proof.
  induction l as [|f l IH]; intros w w' Hall Hrun Hm.
  - cbv [for_each ret] in Hrun. now inversion Hrun; subst.
  - inversion Hall as [|? ? (y & ->) Hall']; subst.
    cbn [for_each] in Hrun.
    apply bind_return_inv in Hrun as (u & w1 & Hstep & Hrest).
    apply move_to_references_inv in Hstep as (n & Hsrc & Hy & _ & Ht).
    apply (IH w1 w' Hall' Hrest).
    destruct Hm as [Hdst Hgone].
    assert (Hxy : y <> x) by (intros ->; congruence).
    unfold moved. rewrite Ht. split.
    + rewrite (@untouched_cousin persona_dir references y x Hxy).
      rewrite (@untouched_uncle persona_dir y references x Hy).
      exact Hdst.
    + rewrite lookup_update_nephew
        by (intros E; apply x_not_references; now rewrite E).
      rewrite lookup_update_sibling by exact Hxy. exact Hgone.
Qed.

Lemma moved_when_listed (l : list path) : forall w w',
  Forall (fun f => exists y, f = persona_dir // y) l ->
  List.In (persona_dir // x) l ->
  for_each l (move_to_references plat (persona_dir // references)) w
  = (Return tt, w') ->
  lookup (persona_dir // x) (tree w) = Some (File data) ->
  moved (tree w').
Proof.
  induction l as [|f l IH]; intros w w' Hall Hin Hrun Hx; [destruct Hin|].
  inversion Hall as [|? ? (y & ->) Hall']; subst.
  cbn [for_each] in Hrun.
  apply bind_return_inv in Hrun as (u & w1 & Hstep & Hrest).
  apply move_to_references_inv in Hstep as (n & Hsrc & Hy & Hrd & Ht).
  destruct (pystr_eqb y x) eqn:Eyx.
  - apply pystr_eqb_eq in Eyx. subst y.
    eapply moved_stays; [exact Hall' | exact Hrest |].
    rewrite Hx in Hsrc. inversion Hsrc; subst n.
    unfold moved. rewrite Ht. split.
    + rewrite lookup_update_same; [reflexivity | apply child_nonempty |].
      rewrite parent_child, lookup_update_sibling by exact x_not_references.
      exact Hrd.
    + rewrite lookup_update_nephew
        by (intros E; apply x_not_references; now rewrite E).
      apply lookup_update_del, child_nonempty.
  - apply pystr_eqb_neq in Eyx.
    apply (IH w1 w' Hall'); auto.
    + destruct Hin as [E|Hin]; [|exact Hin].
      apply child_inj in E. contradiction.
    + rewrite Ht.
      rewrite lookup_update_nephew
        by (intros E; apply x_not_references; now rewrite E).
      rewrite lookup_update_sibling by exact Eyx. exact Hx.
Qed.

End MovedFile.

Lemma mkdir_exist_ok_inv p w u w1 :
  mkdir_exist_ok p w = (Return u, w1) ->
  node_is_file (lookup p (tree w)) = false
  /\ (tree w1 = tree w
      \/ tree w1 = update p (fun _ => Some (Dir [])) (tree w)).
Proof.
  unfold mkdir_exist_ok, bind, get_node.
  destruct (lookup p (tree w)) as [[x|es]|]; try discriminate.
  - cbv [ret]. intros H. inversion H; subst. auto.
  - destruct (lookup (parent p) (tree w)) as [[x|es]|]; try discriminate.
    cbv [modify]. intros H. inversion H; subst. cbn [tree]. auto.
Qed.

(** X12. Scenario B for every directory: when the migration returns True, a
    regular file of the directory whose name is none of SKILL.md,
    PERSONA.md, AI_START_HERE.md is afterwards in references/ under the
    same name with the same text, and no longer in the directory. *)
Theorem additional_file_is_moved
        (yaml_dump : dict -> pystr) (plat : platform)
        (persona_dir : path) (x data : pystr) (w w' : world) :
  create_skill_md yaml_dump plat persona_dir w = (Return true, w') ->
  lookup (persona_dir // x) (tree w) = Some (File data) ->
  name_in x excluded_names = false ->
  lookup (persona_dir // references // x) (tree w') = Some (File data)
  /\ lookup (persona_dir // x) (tree w') = None.
Proof.
  intros H Hx Hn.
  assert (HxS : x <> SKILL_md) by (apply (not_excluded_neq Hn); now left).
  assert (HxP : x <> PERSONA_md)
    by (apply (not_excluded_neq Hn); right; now left).
  assert (HxA : x <> AI_START_HERE_md)
    by (apply (not_excluded_neq Hn); right; right; now left).
  assert (Hmain : forall content,
             (move_additional_files plat persona_dir ;;
              delete_old_files persona_dir ;; ret true)
               (World (update (persona_dir // SKILL_md)
                         (fun _ => Some (File content)) (tree w))
                      (stdout w ++ [MsgCreated])) = (Return true, w') ->
             lookup (persona_dir // references // x) (tree w')
             = Some (File data)
             /\ lookup (persona_dir // x) (tree w') = None).
  { intros content Hrun. set (W := World _ _) in Hrun.
    assert (HxW : lookup (persona_dir // x) (tree W) = Some (File data)).
    { unfold W. cbn [tree].
      rewrite lookup_update_sibling by (intros E; apply HxS; now rewrite E).
      exact Hx. }
    apply bind_return_inv in Hrun as (u & w2 & Hmove & Hrun).
    apply bind_return_inv in Hrun as (u' & w3 & Hdel & Hret).
    cbv [ret] in Hret. inversion Hret; subst w3. clear Hret.
    rewrite move_additional_files_run in Hmove
      by (eapply lookup_child_parent_is_dir; exact HxW).
    assert (Hin : List.In (persona_dir // x)
                          (additional_files_of persona_dir (tree W)))
      by (eapply additional_files_of_complete; eauto).
    assert (Hall : Forall (fun f => exists y, f = persona_dir // y)
                          (additional_files_of persona_dir (tree W))).
    { apply Forall_forall. intros f Hf.
      apply additional_files_of_spec in Hf as (y & -> & _). now exists y. }
    destruct (additional_files_of persona_dir (tree W)) as [|f fs] eqn:E;
      [destruct Hin|].
    apply bind_return_inv in Hmove as (u1 & W1 & Hmk & Hloop).
    apply mkdir_exist_ok_inv in Hmk as [Hnf Ht1].
    assert (Hxr : x <> references).
    { intros ->. rewrite HxW in Hnf. discriminate. }
    assert (HxW1 : lookup (persona_dir // x) (tree W1) = Some (File data)).
    { destruct Ht1 as [-> | ->]; [exact HxW|].
      rewrite lookup_update_sibling by (intros E'; apply Hxr; now rewrite E').
      exact HxW. }
    destruct u.
    destruct (@moved_when_listed plat persona_dir x data Hxr (f :: fs) W1 w2
                Hall Hin Hloop HxW1) as [Hdst Hgone].
    apply delete_old_files_inv in Hdel as (_ & _ & K).
    split.
    - rewrite K; [exact Hdst | |]; apply untouched_uncle; py_neq.
    - rewrite K; [exact Hgone | |]; apply untouched_sibling;
        intros E'; [apply HxP | apply HxA]; now rewrite E'. }
  rewrite create_skill_md_run in H.
  destruct (lookup (persona_dir // PERSONA_md) (tree w)) as [[pc|pes]|];
    try discriminate.
  destruct (lookup (persona_dir // AI_START_HERE_md) (tree w)) as [[a|aes]|];
    destruct (lookup (persona_dir // SKILL_md) (tree w)) as [[s|ses]|];
    try discriminate; eapply Hmain; exact H.
Qed.

Lemma additional_file_is_moved_witness :
  let w' := snd (create_skill_md plain_dump Posix bob demo_world) in
  lookup (bob // references // py "notes.txt") (tree w')
  = Some (File (py "new notes"))
  /\ lookup (bob // py "notes.txt") (tree w') = None.
Proof.
  apply (@additional_file_is_moved plain_dump Posix bob (py "notes.txt")
           (py "new notes") demo_world);
    vm_compute; reflexivity.
Defined.

(* ------------------------------------------------------------------ *)
(** * The directory scan of [main] *)

Lemma is_dir_run p w : is_dir p w = (Return (node_is_dir (lookup p (tree w))), w).
Proof. reflexivity. Qed.

Lemma scan_org_run entries : forall persona_dirs w,
  scan_org entries persona_dirs w
  = (Return (persona_dirs
             ++ filter (fun p => node_is_dir (lookup p (tree w))) entries), w).
Proof.
  induction entries as [|p rest IH]; intros acc w; cbn [scan_org filter].
  - cbv [ret]. now rewrite app_nil_r.
  - erewrite bind_run_return by apply is_dir_run.
    destruct (node_is_dir (lookup p (tree w))); rewrite IH; [|reflexivity].
    now rewrite <- app_assoc.
Qed.

(** The directories below one organisation directory. *)
Definition persona_dirs_of (org_dir : path) (t : node) : list path :=
  if node_is_dir (lookup org_dir t)
     && negb (name_in (name org_dir) [py "templates"])
  then match lookup org_dir t with
       | Some (Dir es) =>
           filter (fun p => node_is_dir (lookup p t))
                  (map (fun e => org_dir // fst e) es)
       | _ => []
       end
  else [].

Lemma scan_root_run entries : forall persona_dirs w,
  scan_root entries persona_dirs w
  = (Return (persona_dirs
             ++ flat_map (fun org_dir => persona_dirs_of org_dir (tree w))
                         entries), w).
Proof.
  induction entries as [|org rest IH]; intros acc w;
    cbn [scan_root flat_map].
  - cbv [ret]. now rewrite app_nil_r.
  - erewrite bind_run_return by apply is_dir_run.
    unfold persona_dirs_of.
    destruct (lookup org (tree w)) as [[x|es]|] eqn:E; cbn [node_is_dir andb].
    + apply IH.
    + destruct (negb (name_in (name org) [py "templates"])).
      * erewrite bind_run_return by (rewrite iterdir_run, E; reflexivity).
        erewrite bind_run_return by apply scan_org_run.
        rewrite IH. now rewrite <- app_assoc.
      * apply IH.
    + apply IH.
Qed.

Lemma name_in_templates x :
  name_in x [py "templates"] = false <-> x <> py "templates".
Proof.
  unfold name_in. cbn [existsb]. rewrite orb_false_r. apply pystr_eqb_neq.
Qed.

(** X14. The scan reads only, never raises, and finds exactly the
    directories two levels below [personas/] whose organisation is a
    directory not named [templates]. *)
Theorem scan_finds_the_persona_directories
        (es : list (pystr * node)) (w : world) :
  lookup root (tree w) = Some (Dir es) ->
  exists persona_dirs,
    scan_root (map (fun e => root // fst e) es) [] w = (Return persona_dirs, w)
    /\ forall d,
        List.In d persona_dirs <->
        exists org p,
          d = root // org // p
          /\ org <> py "templates"
          /\ node_is_dir (lookup (root // org) (tree w)) = true
          /\ node_is_dir (lookup d (tree w)) = true.
Proof.
  intros Hroot. eexists. split; [apply scan_root_run|].
  intros d. cbn [app]. rewrite in_flat_map. split.
  - intros (org_dir & Hin & Hd).
    apply in_map_iff in Hin as (e & <- & _).
    unfold persona_dirs_of in Hd. rewrite name_child in Hd.
    destruct (node_is_dir (lookup (root // fst e) (tree w))) eqn:Eo;
      [|destruct Hd].
    destruct (name_in (fst e) [py "templates"]) eqn:En; [destruct Hd|].
    cbn [negb andb] in Hd.
    destruct (lookup (root // fst e) (tree w)) as [[x|oes]|] eqn:El;
      try destruct Hd.
    apply filter_In in Hd as [Hd Hdir].
    apply in_map_iff in Hd as (e' & <- & _).
    exists (fst e), (fst e'). repeat split; auto.
    + now apply name_in_templates.
    + now rewrite El.
  - intros (org & p & -> & Hne & Ho & Hd).
    exists (root // org). split.
    + apply in_map_iff.
      destruct (lookup (root // org) (tree w)) as [n|] eqn:E; [|discriminate].
      rewrite lookup_child, Hroot in E.
      exists (org, n). split; [reflexivity | now apply entry_in].
    + unfold persona_dirs_of. rewrite name_child, Ho.
      apply name_in_templates in Hne. rewrite Hne. cbn [negb andb].
      destruct (lookup (root // org // p) (tree w)) as [n|] eqn:E;
        [|discriminate].
      pose proof E as E'. rewrite lookup_child in E'.
      destruct (lookup (root // org) (tree w)) as [[x|oes]|]; try discriminate.
      apply filter_In. split.
      * apply in_map_iff. exists (p, n). split; [reflexivity|].
        now apply entry_in.
      * now rewrite E.
Qed.

Definition scan_entries : list (pystr * node) :=
  [(py "templates",
    Dir [(py "base", Dir [(py "PERSONA.md", File (py "# Base"))])]);
   (py "org", Dir [(py "zed", Dir []); (py "notes.txt", File [])])].

Definition scan_world : world :=
  World (Dir [(py "personas", Dir scan_entries)]) [].

Lemma scan_finds_the_persona_directories_witness :
  exists persona_dirs,
    scan_root (map (fun e => root // fst e) scan_entries) [] scan_world
    = (Return persona_dirs, scan_world)
    /\ forall d,
        List.In d persona_dirs <->
        exists org p,
          d = root // org // p
          /\ org <> py "templates"
          /\ node_is_dir (lookup (root // org) (tree scan_world)) = true
          /\ node_is_dir (lookup d (tree scan_world)) = true.
Proof.
  apply (@scan_finds_the_persona_directories scan_entries scan_world).
  reflexivity.
Defined.

(* ------------------------------------------------------------------ *)
(** * The order of processing *)

Lemma pystr_ltb_irrefl a : pystr_ltb a a = false.
Proof.
  induction a as [|x a IH]; [reflexivity|].
  cbn [pystr_ltb]. now rewrite N.ltb_irrefl, N.eqb_refl.
Qed.

Lemma pystr_ltb_asym a : forall b, pystr_ltb a b = true -> pystr_ltb b a = false.
Proof.
  induction a as [|x a IH]; intros [|y b]; cbn [pystr_ltb]; auto;
    try discriminate.
  destruct (N.ltb x y) eqn:Lxy.
  - intros _. apply N.ltb_lt in Lxy.
    assert (N.ltb y x = false) as -> by (apply N.ltb_ge; lia).
    assert (N.eqb y x = false) as -> by (apply N.eqb_neq; lia).
    reflexivity.
  - destruct (N.eqb x y) eqn:Exy; [|discriminate].
    apply N.eqb_eq in Exy. subst y. intros H.
    rewrite N.ltb_irrefl, N.eqb_refl. now apply IH.
Qed.

Lemma path_ltb_asym p : forall q, path_ltb p q = true -> path_ltb q p = false.
Proof.
  induction p as [|x p IH]; intros [|y q]; cbn [path_ltb]; auto;
    try discriminate.
  destruct (pystr_ltb x y) eqn:Lxy.
  - intros _. rewrite (pystr_ltb_asym _ _ Lxy).
    destruct (pystr_eqb y x) eqn:E; [|reflexivity].
    apply pystr_eqb_eq in E. subst y.
    rewrite pystr_ltb_irrefl in Lxy. discriminate.
  - destruct (pystr_eqb x y) eqn:Exy; [|discriminate].
    apply pystr_eqb_eq in Exy. subst y. intros H.
    rewrite pystr_ltb_irrefl, pystr_eqb_refl. now apply IH.
Qed.

(** [a] may come before [b]: [b] is not smaller. *)
Definition in_order (a b : path) : Prop := path_ltb b a = false.

Lemma insert_sorted_perm x l : Permutation (x :: l) (insert_sorted x l).
Proof.
  induction l as [|y l IH]; cbn [insert_sorted]; [reflexivity|].
  destruct (path_ltb x y); [reflexivity|].
  rewrite perm_swap. now apply perm_skip.
Qed.

Lemma insert_sorted_ordered x l :
  Sorted in_order l -> Sorted in_order (insert_sorted x l).
Proof.
  induction 1 as [|y l Hs IH Hd]; cbn [insert_sorted].
  - repeat constructor.
  - destruct (path_ltb x y) eqn:Lxy.
    + constructor; [now constructor|].
      constructor. unfold in_order. now apply path_ltb_asym.
    + constructor; [exact IH|].
      destruct l as [|z l']; cbn [insert_sorted].
      * constructor. exact Lxy.
      * destruct (path_ltb x z); constructor;
          [exact Lxy | now inversion Hd].
Qed.

Lemma sorted_from acc l :
  Sorted in_order acc ->
  Permutation (l ++ acc) (fold_left (fun a x => insert_sorted x a) l acc)
  /\ Sorted in_order (fold_left (fun a x => insert_sorted x a) l acc).
Proof.
  revert acc. induction l as [|x l IH]; intros acc Hacc; cbn [fold_left app].
  - split; [reflexivity | exact Hacc].
  - destruct (IH (insert_sorted x acc) (insert_sorted_ordered x Hacc))
      as [Hp Hs].
    split; [|exact Hs].
    rewrite <- Hp. rewrite <- insert_sorted_perm.
    apply Permutation_middle.
Qed.

(** The directories are converted in ascending order of their paths,
    each one once: the list the conversion loop runs over has the same
    elements as the list found, and none is followed by a smaller
    one. *)
Theorem sorted_is_an_ordered_permutation (persona_dirs : list path) :
  Permutation persona_dirs (sorted persona_dirs)
  /\ Sorted in_order (sorted persona_dirs).
Proof.
  unfold sorted.
  destruct (@sorted_from [] persona_dirs (Sorted_nil _)) as [Hp Hs].
  rewrite app_nil_r in Hp. now split.
Qed.

Lemma sorted_in (l : list path) (d : path) :
  List.In d (sorted l) -> List.In d l.
Proof.
  unfold sorted.
  destruct (@sorted_from [] l (Sorted_nil _)) as [Hp _].
  rewrite app_nil_r in Hp. intros H.
  eapply Permutation_in; [symmetry; exact Hp | exact H].
Qed.

Lemma sorted_length (l : list path) : length (sorted l) = length l.
Proof.
  unfold sorted.
  destruct (@sorted_from [] l (Sorted_nil _)) as [Hp _].
  rewrite app_nil_r in Hp. symmetry. now apply Permutation_length.
Qed.

(* ------------------------------------------------------------------ *)
(** * Further properties of [main] *)

Lemma convert_all_count yaml_dump plat l : forall n w m w',
  convert_all yaml_dump plat l n w = (Return m, w') ->
  n <= m /\ m <= n + length l.
Proof.
  induction l as [|d l IH]; intros n w m w' H; cbn [convert_all] in H.
  - cbv [ret] in H. inversion H; subst. cbn [length]. lia.
  - apply bind_return_inv in H as (u & w1 & _ & H).
    apply bind_return_inv in H as (ok & w2 & _ & H).
    apply bind_return_inv in H as (u' & w3 & _ & H).
    apply IH in H. cbn [length]. destruct ok; lia.
Qed.

Lemma keeps_convert_all q yaml_dump plat l : forall n,
  Forall (fun d => keeps q (create_skill_md yaml_dump plat d)) l ->
  keeps q (convert_all yaml_dump plat l n).
Proof.
  induction l as [|d l IH]; intros n Hall; cbn [convert_all].
  - apply keeps_ret.
  - inversion Hall; subst.
    apply keeps_bind; [apply keeps_print|]. intros _.
    apply keeps_bind; [assumption|]. intros ok.
    apply keeps_bind; [apply keeps_print|]. intros _. now apply IH.
Qed.

Lemma persona_dirs_of_shape org_dir t d :
  List.In d (persona_dirs_of org_dir t) -> exists p, d = org_dir // p.
Proof.
  unfold persona_dirs_of.
  destruct (_ && _); [|intros []].
  destruct (lookup org_dir t) as [[x|es]|]; try (intros []).
  intros H. apply filter_In in H as [H _].
  apply in_map_iff in H as (e & <- & _). now exists (fst e).
Qed.

(** X16. [main] stays inside [personas/]: whatever the outcome of the run,
    a path whose first component is not [personas] holds afterwards
    what it held before. *)
Theorem main_stays_inside_personas
        (yaml_dump : dict -> pystr) (plat : platform)
        (b : pystr) (q' : path) (w : world) :
  b <> py "personas" ->
  lookup (b :: q') (tree (snd (main yaml_dump plat w)))
  = lookup (b :: q') (tree w).
Proof.
  intros Hb. unfold main.
  erewrite bind_run_return by apply exists_run.
  destruct (lookup root (tree w)) as [[x|es]|] eqn:Er; cbn [is_some negb];
    [ | | reflexivity].
  - erewrite bind_run_raise by (rewrite iterdir_run, Er; reflexivity).
    reflexivity.
  - erewrite bind_run_return by (rewrite iterdir_run, Er; reflexivity).
    erewrite bind_run_return by apply scan_root_run.
    erewrite bind_run_return by reflexivity.
    cbn [app].
    set (dirs := flat_map _ _).
    assert (Hall : Forall (fun d => keeps (b :: q')
                                          (create_skill_md yaml_dump plat d))
                          (sorted dirs)).
    { apply Forall_forall. intros d Hd. apply sorted_in in Hd.
      unfold dirs in Hd. apply in_flat_map in Hd as (org_dir & Ho & Hd).
      apply in_map_iff in Ho as (e & <- & _).
      apply persona_dirs_of_shape in Hd as (p & ->).
      apply (@keeps_create_skill_md_outside yaml_dump plat []
               (py "personas") b [fst e; p] q').
      intros E. apply Hb. now rewrite E. }
    pose proof (@keeps_convert_all (b :: q') yaml_dump plat (sorted dirs) 0
                  Hall) as Hk.
    set (W := World _ _). specialize (Hk W).
    unfold bind.
    destruct (convert_all yaml_dump plat (sorted dirs) 0 W) as [[n|e] w1];
      cbn [snd] in *; exact Hk.
Qed.

Lemma main_stays_inside_personas_witness :
  lookup [py "notes"; py "todo.txt"]
         (tree (snd (main plain_dump Posix
                          (World (Dir [(py "notes",
                                        Dir [(py "todo.txt", File (py "x"))]);
                                       (py "personas", Dir scan_entries)])
                                 []))))
  = lookup [py "notes"; py "todo.txt"]
           (tree (World (Dir [(py "notes",
                               Dir [(py "todo.txt", File (py "x"))]);
                              (py "personas", Dir scan_entries)]) [])).
Proof.
  apply (@main_stays_inside_personas plain_dump Posix (py "notes")
           [py "todo.txt"]).
  py_neq.
Defined.

(* ------------------------------------------------------------------ *)
(** * The summary of [main] *)

(** When [create_skill_md] returns, its result tells whether PERSONA.md
    was there. *)
Lemma create_skill_md_result yaml_dump plat persona_dir w ok w1 :
  create_skill_md yaml_dump plat persona_dir w = (Return ok, w1) ->
  ok = is_some (lookup (persona_dir // PERSONA_md) (tree w)).
Proof.
  rewrite create_skill_md_run.
  destruct (lookup (persona_dir // PERSONA_md) (tree w)) as [[pc|pes]|];
    cbn [is_some]; [ | discriminate | intros H; now inversion H].
  assert (Hrun : forall W,
             (move_additional_files plat persona_dir ;;
              delete_old_files persona_dir ;; ret true) W = (Return ok, w1) ->
             ok = true).
  { intros W H.
    apply bind_return_inv in H as (u1 & w2 & _ & H).
    apply bind_return_inv in H as (u2 & w3 & _ & H).
    cbv [ret] in H. now inversion H. }
  destruct (lookup (persona_dir // AI_START_HERE_md) (tree w)) as [[a|aes]|];
    destruct (lookup (persona_dir // SKILL_md) (tree w)) as [[s|ses]|];
    try discriminate; apply Hrun.
Qed.

(** The migration of one persona directory leaves the PERSONA.md of
    every other one as it is. *)
Lemma keeps_other_persona_md yaml_dump plat org p org' p' :
  root // org // p <> root // org' // p' ->
  keeps (root // org' // p' // PERSONA_md)
        (create_skill_md yaml_dump plat (root // org // p)).
Proof.
  intros Hne.
  destruct (pystr_eqb org org') eqn:E.
  - apply pystr_eqb_eq in E. subst org'.
    apply (@keeps_create_skill_md_outside yaml_dump plat
             [py "personas"; org] p p' [] [PERSONA_md]).
    intros ->. now apply Hne.
  - apply pystr_eqb_neq in E.
    apply (@keeps_create_skill_md_outside yaml_dump plat
             [py "personas"] org org' [p] [p'; PERSONA_md]).
    exact E.
Qed.

(** The conversion loop over directories that are listed once each: the
    counter grows by the number of those that held a PERSONA.md when
    the loop began. *)
Lemma convert_all_counts yaml_dump plat l : forall n w m w',
  NoDup l ->
  (forall d, List.In d l -> exists org p, d = root // org // p) ->
  convert_all yaml_dump plat l n w = (Return m, w') ->
  m = n + length (filter (fun d => is_some (lookup (d // PERSONA_md) (tree w)))
                         l).
Proof.
  induction l as [|d l IH]; intros n w m w' Hnd Hshape H;
    cbn [convert_all] in H.
  - cbv [ret] in H. inversion H; subst. cbn [filter length]. lia.
  - apply bind_return_inv in H as (u & w1 & Hp1 & H).
    apply print_inv in Hp1.
    apply bind_return_inv in H as (ok & w2 & Hc & H).
    apply bind_return_inv in H as (u' & w3 & Hp2 & H).
    apply print_inv in Hp2.
    inversion Hnd as [|? ? Hnotin Hnd']; subst.
    apply IH in H; [ | exact Hnd' | intros d' Hd'; apply Hshape; now right].
    pose proof (create_skill_md_result _ _ _ _ Hc) as Hok.
    cbn [tree] in Hok, H.
    assert (Hsame : filter (fun d' => is_some (lookup (d' // PERSONA_md) (tree w2))) l
                    = filter (fun d' => is_some (lookup (d' // PERSONA_md) (tree w))) l).
    { apply filter_ext_in. intros d' Hd'.
      destruct (Hshape d (or_introl eq_refl)) as (org & p & ->).
      destruct (Hshape d' (or_intror Hd')) as (org' & p' & ->).
      assert (Hne : root // org // p <> root // org' // p')
        by (intros E; apply Hnotin; now rewrite E).
      pose proof (keeps_other_persona_md yaml_dump plat Hne) as Hk.
      now rewrite (@keeps_run _ _ _ _ _ _ Hk Hc). }
    rewrite Hsame in H. subst m. cbn [filter].
    rewrite <- Hok. destruct ok; cbn [length]; lia.
Qed.

Lemma filter_permutation {A} (f : A -> bool) l l' :
  Permutation l l' -> Permutation (filter f l) (filter f l').
Proof.
  induction 1 as [|x l l' _ IH|x y l|l l' l'' _ IH1 _ IH2]; cbn [filter].
  - constructor.
  - destruct (f x); [now constructor | exact IH].
  - destruct (f x), (f y); try reflexivity. apply perm_swap.
  - now transitivity (filter f l').
Qed.

(** X15. A run of [main] that returns 0 ends by printing its summary.
    The total it prints is the number of directories the scan of
    [personas/] has returned, and the success count is at most that
    number; when no directory is listed twice, the success count is the
    number of the directories found that held a PERSONA.md when the run
    began. *)
Theorem main_summary_counts_the_directories
        (yaml_dump : dict -> pystr) (plat : platform)
        (es : list (pystr * node)) (persona_dirs : list path)
        (w w' : world) :
  lookup root (tree w) = Some (Dir es) ->
  scan_root (map (fun e => root // fst e) es) [] w = (Return persona_dirs, w) ->
  main yaml_dump plat w = (Return 0, w') ->
  exists out success_count,
    stdout w' = out ++ [MsgSummary success_count (length persona_dirs)]
    /\ success_count <= length persona_dirs
    /\ (NoDup persona_dirs ->
        success_count
        = length (filter (fun d => is_some (lookup (d // PERSONA_md) (tree w)))
                         persona_dirs)).
Proof.
  intros Hroot Hscan Hmain. unfold main in Hmain.
  erewrite bind_run_return in Hmain by apply exists_run.
  rewrite Hroot in Hmain. cbn [is_some negb] in Hmain.
  erewrite bind_run_return in Hmain
    by (rewrite iterdir_run, Hroot; reflexivity).
  erewrite bind_run_return in Hmain by exact Hscan.
  erewrite bind_run_return in Hmain by reflexivity.
  apply bind_return_inv in Hmain as (sc & w2 & Hconv & Hmain).
  apply bind_return_inv in Hmain as (u & w3 & Hp & Hmain).
  apply print_inv in Hp. cbv [ret] in Hmain. inversion Hmain; subst.
  exists (stdout w2), sc. split; [reflexivity|].
  destruct (sorted_is_an_ordered_permutation persona_dirs) as [Hperm _].
  split.
  - apply convert_all_count in Hconv. rewrite sorted_length in Hconv. lia.
  - intros Hnd.
    apply convert_all_counts in Hconv.
    + cbn [tree] in Hconv. rewrite Hconv. cbn [Nat.add].
      symmetry. apply Permutation_length. now apply filter_permutation.
    + eapply Permutation_NoDup; eassumption.
    + intros d Hd. apply sorted_in in Hd.
      rewrite scan_root_run in Hscan. inversion Hscan as [Hdirs].
      rewrite <- Hdirs in Hd. cbn [app] in Hd.
      apply in_flat_map in Hd as (org_dir & Ho & Hd).
      apply in_map_iff in Ho as (e & <- & _).
      apply persona_dirs_of_shape in Hd as (p & ->).
      now exists (fst e), p.
Qed.

Lemma main_summary_counts_the_directories_witness :
  let w' := snd (main plain_dump Posix demo_world) in
  exists out success_count,
    stdout w' = out ++ [MsgSummary success_count (length [zed; bob])]
    /\ success_count <= length [zed; bob]
    /\ (NoDup [zed; bob] ->
        success_count
        = length (filter (fun d => is_some (lookup (d // PERSONA_md)
                                                   (tree demo_world)))
                         [zed; bob])).
Proof.
  eapply (@main_summary_counts_the_directories plain_dump Posix _ [zed; bob]
            demo_world);
    vm_compute; reflexivity.
Defined.

(** On that tree the scan finds two directories, one of which holds a
    PERSONA.md: the summary reads 1/2. *)
Example main_summary_on_demo_world :
  exists out,
    stdout (snd (main plain_dump Posix demo_world)) = out ++ [MsgSummary 1 2].
Proof.
  exists (removelast (stdout (snd (main plain_dump Posix demo_world)))).
  vm_compute. reflexivity.
Qed.

(* ------------------------------------------------------------------ *)
(** * What the two substitutions remove *)

(** A pattern that opens with [^] matches nowhere but at the start of
    the text when MULTILINE is off. *)
Lemma anchored_match_inside fl r bef aft :
  MULTILINE fl = false -> bef <> [] ->
  match_at fl (Cat Bol r) bef aft = None.
Proof.
  intros Hm Hb. unfold match_at. cbn [rmatch].
  destruct bef as [|c bef']; [congruence|].
  cbn [at_beginning]. now rewrite Hm.
Qed.

Lemma anchored_sub_inside fl r fuel : forall bef aft,
  MULTILINE fl = false -> bef <> [] ->
  sub_from fuel fl (Cat Bol r) bef aft = aft.
Proof.
  induction fuel as [|fuel IH]; intros bef aft Hm Hb; [reflexivity|].
  cbn [sub_from]. rewrite anchored_match_inside by assumption.
  destruct aft as [|c aft']; [reflexivity|].
  f_equal. apply IH; [exact Hm | discriminate].
Qed.

(** When such a pattern does not match at the start, [re.sub] returns
    the text as it is. *)
Lemma anchored_sub_no_match fl r s :
  MULTILINE fl = false ->
  match_at fl (Cat Bol r) [] s = None ->
  sub_empty fl (Cat Bol r) s = s.
Proof.
  intros Hm Hn. unfold sub_empty. cbn [sub_from]. rewrite Hn.
  destruct s as [|c s']; [reflexivity|].
  f_equal. apply anchored_sub_inside; [exact Hm | discriminate].
Qed.

(** X17. A quick-start text whose first visible character is not [#] goes
    into the body whole (stripped) under the Quick Start heading. *)
Theorem quick_start_without_heading_is_kept (ai_start_content : pystr) :
  nonempty (strip ai_start_content) = true ->
  startswith (ch "#") (strip ai_start_content) = false ->
  quick_start_part ai_start_content
  = [py "# Quick Start" ++ [nl; nl] ++ strip ai_start_content].
Proof.
  intros Hne Hh. unfold quick_start_part.
  assert (Hai : nonempty ai_start_content = true).
  { destruct ai_start_content; [discriminate | reflexivity]. }
  rewrite Hai.
  change first_header_re
    with (Cat Bol (seq [Lit (ch "#");
                        Plus (OneOf true [SLit (ch "#"); SLit nl]);
                        Plus (Lit nl)])).
  rewrite anchored_sub_no_match; [now rewrite Hne | reflexivity |].
  destruct (strip ai_start_content) as [|c t]; [discriminate|].
  cbn [startswith] in Hh. unfold match_at. cbn [seq rmatch at_beginning].
  unfold one_char at 1. unfold lit_match. cbn [IGNORECASE no_flags].
  now rewrite Hh.
Qed.

Lemma quick_start_without_heading_is_kept_witness :
  quick_start_part (py "Start here." ++ [nl] ++ py "# Later heading" ++ [nl])
  = [py "# Quick Start" ++ [nl; nl]
     ++ strip (py "Start here." ++ [nl] ++ py "# Later heading" ++ [nl])].
Proof.
  apply (quick_start_without_heading_is_kept
           (py "Start here." ++ [nl] ++ py "# Later heading" ++ [nl]));
    vm_compute; reflexivity.
Defined.

(** X18. A PERSONA.md text that does not begin with a dash has nothing
    removed as front matter: its stripped text is the detailed part of
    the body, however many [---] lines it holds further down. *)
Theorem persona_without_front_matter_is_kept (persona_content : pystr) :
  nonempty persona_content = true ->
  startswith (ch "-") persona_content = false ->
  persona_part persona_content = [strip persona_content].
Proof.
  intros Hne Hd. unfold persona_part. rewrite Hne.
  change front_matter_re
    with (Cat Bol (seq [lits "---"; Lit nl; Star false Any; Lit nl;
                        lits "---"; Lit nl])).
  rewrite anchored_sub_no_match; [reflexivity | reflexivity |].
  destruct persona_content as [|c t]; [discriminate|].
  cbn [startswith] in Hd. unfold match_at.
  cbn [seq lits py map list_ascii_of_string rmatch at_beginning].
  cbn [rmatch]. unfold one_char at 1. unfold lit_match.
  cbn [IGNORECASE front_matter_flags].
  change (N_of_ascii "-") with (ch "-"). now rewrite Hd.
Qed.

Lemma persona_without_front_matter_is_kept_witness :
  persona_part (py "# Title" ++ [nl] ++ py "---" ++ [nl] ++ py "x" ++ [nl]
                ++ py "---" ++ [nl] ++ py "Body" ++ [nl])
  = [strip (py "# Title" ++ [nl] ++ py "---" ++ [nl] ++ py "x" ++ [nl]
            ++ py "---" ++ [nl] ++ py "Body" ++ [nl])].
Proof.
  apply (persona_without_front_matter_is_kept
           (py "# Title" ++ [nl] ++ py "---" ++ [nl] ++ py "x" ++ [nl]
            ++ py "---" ++ [nl] ++ py "Body" ++ [nl]));
    vm_compute; reflexivity.
Defined.

(* ------------------------------------------------------------------ *)
(** * What a match consumes

    The text a pattern can consume, as a set of strings, and the
    soundness of the matcher for it: whatever [rmatch] hands to its
    continuation lies after a text of that set, and group 1, when set,
    holds a text the body of the group can consume. *)

Section Language.

Variable fl : flags.

Fixpoint lang (r : regex) (t : pystr) : Prop :=
  match r with
  | Eps | Bol | Eol => t = []
  | Lit c => exists x, t = [x] /\ lit_match fl c x = true
  | OneOf negate set => exists x, t = [x] /\ set_match fl negate set x = true
  | Any => exists x, t = [x] /\ any_match fl x = true
  | Cat r1 r2 => exists t1 t2, t = t1 ++ t2 /\ lang r1 t1 /\ lang r2 t2
  | Star _ r1 => exists pieces, t = concat pieces /\ Forall (lang r1) pieces
  | Opt r1 => t = [] \/ lang r1 t
  | Group1 r1 => lang r1 t
  end.

(** [t] is a text the body of a group of [r] can consume. *)
Fixpoint group_ok (r : regex) (t : pystr) : Prop :=
  match r with
  | Group1 r1 => lang r1 t \/ group_ok r1 t
  | Cat r1 r2 => group_ok r1 t \/ group_ok r2 t
  | Star _ r1 => group_ok r1 t
  | Opt r1 => group_ok r1 t
  | _ => False
  end.

(** Every match of [r] goes through a group. *)
Fixpoint must_group (r : regex) : bool :=
  match r with
  | Group1 _ => true
  | Cat r1 r2 => must_group r1 || must_group r2
  | _ => false
  end.

(** What a continuation is called with after a text of [L]. *)
Definition reaches (R : Type) (L GK : pystr -> Prop) (must : bool)
           (bef aft : pystr) (g : option pystr) (k : cont R) (x : R) : Prop :=
  exists pre a g',
    aft = pre ++ a
    /\ L pre
    /\ k (rev pre ++ bef) a g' = Some x
    /\ (g' = g \/ exists t, g' = Some t /\ GK t)
    /\ (must = true -> exists t, g' = Some t /\ GK t).

Lemma star_loop_sound (R : Type) (greedy : bool)
      (body : pystr -> pystr -> option pystr -> cont R -> option R)
      (L GK : pystr -> Prop) (k : cont R) (x : R) :
  (forall bef aft g (k' : cont R),
      body bef aft g k' = Some x -> reaches L GK false bef aft g k' x) ->
  forall n bef aft g,
    star_loop greedy body k n bef aft g = Some x ->
    reaches (fun t => exists pieces, t = concat pieces /\ Forall L pieces)
            GK false bef aft g k x.
Proof.
  intros Hbody.
  assert (Hstop : forall bef aft g,
             k bef aft g = Some x ->
             reaches (fun t => exists pieces,
                          t = concat pieces /\ Forall L pieces)
                     GK false bef aft g k x).
  { intros bef aft g H. exists [], aft, g. repeat split; auto.
    - now exists [].
    - discriminate. }
  induction n as [|n IHn]; intros bef aft g H; cbn [star_loop] in H;
    [now apply Hstop|].
  cbv zeta in H.
  assert (Hmore :
            body bef aft g
              (fun b a g' =>
                 if length a <? length aft
                 then star_loop greedy body k n b a g' else None)
            = Some x ->
            reaches (fun t => exists pieces,
                         t = concat pieces /\ Forall L pieces)
                    GK false bef aft g k x).
  { intros Hb. apply Hbody in Hb.
    destruct Hb as (pre1 & a1 & g1 & -> & HL & Hk & Hg & _).
    destruct (length a1 <? length (pre1 ++ a1)); [|discriminate].
    apply IHn in Hk.
    destruct Hk as (pre2 & a2 & g2 & -> & (pieces & -> & Hall) & Hk & Hg2 & _).
    exists (pre1 ++ concat pieces), a2, g2. split; [|split; [|split; [|split]]].
    - now rewrite app_assoc.
    - exists (pre1 :: pieces). split; [reflexivity | now constructor].
    - rewrite rev_app_distr, <- app_assoc. exact Hk.
    - destruct Hg2 as [-> | Hg2]; [exact Hg | now right].
    - discriminate. }
  destruct greedy.
  - destruct (body bef aft g _) as [x'|] eqn:Eb.
    + apply Hmore. exact H.
    + now apply Hstop.
  - destruct (k bef aft g) as [x'|] eqn:Ek.
    + apply Hstop. congruence.
    + apply Hmore. exact H.
Qed.

Lemma firstn_consumed (pre a : pystr) :
  firstn (length (pre ++ a) - length a) (pre ++ a) = pre.
Proof.
  rewrite length_app.
  replace (length pre + length a - length a) with (length pre + 0) by lia.
  rewrite firstn_app_2. cbn [firstn]. apply app_nil_r.
Qed.

Lemma rmatch_sound (R : Type) (r : regex) : forall bef aft g (k : cont R) x,
  rmatch fl r bef aft g k = Some x ->
  reaches (lang r) (group_ok r) (must_group r) bef aft g k x.
Proof.
  assert (Hone : forall (p : char -> bool) (L : pystr -> Prop)
                        bef aft g (k : cont R) x,
             (forall c, p c = true -> L [c]) ->
             one_char p bef aft g k = Some x ->
             reaches L (fun _ => False) false bef aft g k x).
  { intros p L bef aft g k x HL H. unfold one_char in H.
    destruct aft as [|c aft']; [discriminate|].
    destruct (p c) eqn:E; [|discriminate].
    exists [c], aft', g. repeat split; auto. discriminate. }
  induction r as [| c | negate set | | | | r1 IH1 r2 IH2 | greedy r1 IH1
                  | r1 IH1 | r1 IH1];
    intros bef aft g k x H; cbn [rmatch] in H.
  - exists [], aft, g. repeat split; auto. discriminate.
  - apply Hone with (L := lang (Lit c)) in H; [exact H|].
    intros y Hy. now exists y.
  - apply Hone with (L := lang (OneOf negate set)) in H; [exact H|].
    intros y Hy. now exists y.
  - apply Hone with (L := lang Any) in H; [exact H|].
    intros y Hy. now exists y.
  - destruct (at_beginning fl bef); [|discriminate].
    exists [], aft, g. repeat split; auto. discriminate.
  - destruct (at_end fl aft); [|discriminate].
    exists [], aft, g. repeat split; auto. discriminate.
  - apply IH1 in H.
    destruct H as (pre1 & a1 & g1 & -> & HL1 & Hk & Hg1 & Hm1).
    apply IH2 in Hk.
    destruct Hk as (pre2 & a2 & g2 & -> & HL2 & Hk & Hg2 & Hm2).
    exists (pre1 ++ pre2), a2, g2. split; [|split; [|split; [|split]]].
    + now rewrite app_assoc.
    + now exists pre1, pre2.
    + rewrite rev_app_distr, <- app_assoc. exact Hk.
    + destruct Hg2 as [-> | (t & -> & Ht)].
      * destruct Hg1 as [-> | (t & -> & Ht)]; [now left|].
        right. exists t. split; [reflexivity | now left].
      * right. exists t. split; [reflexivity | now right].
    + cbn [must_group]. intros Hm. apply orb_true_iff in Hm.
      destruct (must_group r2) eqn:E2.
      * destruct (Hm2 eq_refl) as (t & -> & Ht).
        exists t. split; [reflexivity | now right].
      * destruct Hm as [Hm|Hm]; [|discriminate].
        destruct (Hm1 Hm) as (t & -> & Ht).
        destruct Hg2 as [-> | (t' & -> & Ht')].
        -- exists t. split; [reflexivity | now left].
        -- exists t'. split; [reflexivity | now right].
  - apply star_loop_sound with (L := lang r1) (GK := group_ok r1) in H.
    + exact H.
    + intros b a g0 k' Hb. apply IH1 in Hb.
      destruct Hb as (pre & a' & g' & E & HL & Hk & Hg & _).
      exists pre, a', g'. repeat split; auto. discriminate.
  - destruct (rmatch fl r1 bef aft g k) as [x'|] eqn:E.
    + inversion H; subst x'. apply IH1 in E.
      destruct E as (pre & a' & g' & E & HL & Hk & Hg & _).
      exists pre, a', g'. repeat split; auto.
      * now right.
      * discriminate.
    + exists [], aft, g. repeat split; auto.
      * now left.
      * discriminate.
  - apply IH1 in H.
    destruct H as (pre & a' & g' & -> & HL & Hk & _ & _).
    rewrite firstn_consumed in Hk.
    exists pre, a', (Some pre). repeat split; auto.
    + right. exists pre. split; [reflexivity | now left].
    + intros _. exists pre. split; [reflexivity | now left].
Qed.

Lemma search_from_sound (r : regex) : forall bef aft m,
  search_from fl r bef aft = Some m ->
  must_group r = true ->
  exists t, m_group1 m = Some t /\ group_ok r t.
Proof.
  intros bef aft. revert bef.
  induction aft as [|c aft IH]; intros bef m H Hm; cbn [search_from] in H.
  - destruct (match_at fl r bef []) as [m'|] eqn:E; [|discriminate].
    inversion H; subst m'. unfold match_at in E. apply rmatch_sound in E.
    destruct E as (pre & a & g' & _ & _ & Hk & _ & Hmust).
    inversion Hk; subst m. cbn [m_group1]. now apply Hmust.
  - destruct (match_at fl r bef (c :: aft)) as [m'|] eqn:E.
    + inversion H; subst m'. unfold match_at in E. apply rmatch_sound in E.
      destruct E as (pre & a & g' & _ & _ & Hk & _ & Hmust).
      inversion Hk; subst m. cbn [m_group1]. now apply Hmust.
    + now apply IH in H.
Qed.

(** One or more characters of a class. *)
Lemma lang_plus_chars (p : char -> bool) (r : regex) (t : pystr) :
  (forall u, lang r u -> exists x, u = [x] /\ p x = true) ->
  lang (Plus r) t -> t <> [] /\ Forall (fun x => p x = true) t.
Proof.
  intros Hr (t1 & t2 & -> & H1 & pieces & -> & Hall).
  apply Hr in H1 as (x & -> & Hx). split; [discriminate|].
  constructor; [exact Hx|].
  induction Hall as [|u us Hu _ IH]; cbn [concat]; [constructor|].
  apply Hr in Hu as (y & -> & Hy). now constructor.
Qed.

End Language.

Lemma group_ok_seq fl (rs : list regex) (t : pystr) :
  group_ok fl (seq rs) t -> Exists (fun r => group_ok fl r t) rs.
Proof.
  induction rs as [|r rs IH]; cbn [seq group_ok]; [intros []|].
  destruct rs as [|r' rs'].
  - intros H. now constructor.
  - cbn [group_ok]. intros [H|H]; [now constructor|].
    apply Exists_cons_tl. now apply IH.
Qed.

Lemma group_ok_lits fl (s : string) (t : pystr) : ~ group_ok fl (lits s) t.
Proof.
  unfold lits. intros H. apply group_ok_seq in H.
  apply Exists_exists in H as (r & Hin & Hr).
  apply in_map_iff in Hin as (c & <- & _). exact Hr.
Qed.

Lemma char_range_bounds (n : nat) : forall lo p,
  List.In p (char_range lo n) -> (lo <= p < lo + N.of_nat n)%N.
Proof.
  induction n as [|n IH]; intros lo p; cbn [char_range]; [intros []|].
  intros [<-|H]; [lia|]. apply IH in H. lia.
Qed.

(** What [[a-z]] matches under IGNORECASE, seen after [str.lower()]:
    lower-case ASCII letters, the dotless i, the long s, and the
    combining dot that the lower case of U+0130 carries. *)
Definition lowered_letter (x : char) : Prop :=
  char_in 97%N 122%N x = true \/ x = 305%N \/ x = 383%N \/ x = 775%N.

Lemma lower_char_of_letter (c : char) :
  set_match autonomy_flags false [SRange (ch "a") (ch "z")] c = true ->
  lower_char c <> [] /\ Forall lowered_letter (lower_char c).
Proof.
  unfold set_match. cbn [existsb item_match xorb IGNORECASE autonomy_flags].
  rewrite orb_false_r. intros H.
  apply existsb_exists in H as (p & Hin & Hp).
  apply char_range_bounds in Hin.
  change (ch "a") with 97%N in Hin. change (ch "z") with 122%N in Hin.
  change (N.of_nat (N.to_nat (N.succ 122 - 97))) with 26%N in Hin.
  assert (Hlc : lowered_letter (sre_lower c) /\ sre_lower c <> 775%N).
  { unfold ci_equiv in Hp.
    assert (Hsp : sre_lower p = p).
    { unfold sre_lower, char_in.
      destruct (N.leb_spec 65 p); destruct (N.leb_spec p 90); cbn [andb];
        try lia.
      destruct (N.eqb_spec p 304); [lia|].
      destruct (N.eqb_spec p 8490); [lia | reflexivity]. }
    rewrite Hsp in Hp. apply orb_true_iff in Hp as [Hp|Hp].
    - apply N.eqb_eq in Hp. rewrite Hp. split; [|lia].
      left. unfold char_in. apply andb_true_iff.
      split; apply N.leb_le; lia.
    - apply existsb_exists in Hp as (f & Hf & Hlf).
      apply N.eqb_eq in Hlf. rewrite Hlf. unfold fixes in Hf.
      destruct (N.eqb p 105).
      + destruct Hf as [<-|[]]. split; [right; now left | lia].
      + destruct (N.eqb p 115); [|destruct Hf].
        destruct Hf as [<-|[]]. split; [right; right; now left | lia]. }
  destruct Hlc as [Hlc _]. unfold lower_char. unfold sre_lower in Hlc.
  destruct (char_in 65%N 90%N c) eqn:Eu.
  - split; [discriminate|]. constructor; [exact Hlc | constructor].
  - destruct (N.eqb_spec c 304).
    + split; [discriminate|].
      constructor; [left; reflexivity|].
      constructor; [right; right; right; reflexivity | constructor].
    + destruct (N.eqb_spec c 8490).
      * split; [discriminate|]. constructor; [left; reflexivity | constructor].
      * split; [discriminate|]. constructor; [exact Hlc | constructor].
Qed.

(** X5. An autonomy level is never empty and is made of lower-case
    letters: no capital, no digit, no white space, no punctuation. *)
Theorem autonomy_level_is_lower_case_letters (content persona_name : pystr) :
  match get_in (py "metadata") (py "autonomy_level")
               (extract_metadata_from_persona content persona_name) with
  | Some (PStr s) => s <> [] /\ Forall lowered_letter s
  | Some _ => False
  | None => True
  end.
Proof.
  rewrite extract_autonomy_level.
  destruct (search autonomy_flags autonomy_re content) as [m|] eqn:Es;
    [|exact I].
  unfold search in Es.
  apply search_from_sound in Es as (t & Hg & Hok); [|reflexivity].
  unfold group1. rewrite Hg.
  unfold autonomy_re in Hok. apply group_ok_seq in Hok.
  inversion Hok as [? ? H1|? ? H1]; subst; [now apply group_ok_lits in H1|].
  inversion H1 as [? ? H2|? ? H2]; subst; [destruct H2 as [[]|[]]|].
  inversion H2 as [? ? H3|? ? H3]; subst; [|inversion H3].
  destruct H3 as [H3|[[]|[]]].
  apply lang_plus_chars
    with (p := set_match autonomy_flags false [SRange (ch "a") (ch "z")])
    in H3; [|intros u Hu; exact Hu].
  destruct H3 as [Hne Hall]. unfold lower.
  destruct t as [|c t]; [congruence|].
  inversion Hall as [|? ? Hc Ht]; subst.
  cbn [flat_map]. split.
  - destruct (@lower_char_of_letter c Hc) as [Hn _].
    destruct (lower_char c); [congruence | discriminate].
  - apply Forall_app. split; [now apply lower_char_of_letter|].
    clear - Ht. induction Ht as [|y ys Hy _ IH]; cbn [flat_map];
      [constructor|].
    apply Forall_app. split; [now apply lower_char_of_letter | exact IH].
Qed.

Lemma split_incl (sep : char) (s piece : pystr) (x : char) :
  List.In piece (split sep s) -> List.In x piece -> List.In x s.
Proof.
  revert piece. induction s as [|c s IH]; intros piece; cbn [split].
  - intros [<-|[]] [].
  - destruct (N.eqb c sep).
    + intros [<-|H] Hx; [destruct Hx|]. right. now apply (IH piece).
    + destruct (split sep s) as [|p ps] eqn:Es.
      * intros [<-|[]] [<-|[]]. now left.
      * intros [<-|H] Hx.
        -- destruct Hx as [<-|Hx]; [now left|]. right.
           apply (IH p); [now left | exact Hx].
        -- right. apply (IH piece); [now right | exact Hx].
Qed.

(** X6. A specialties field is never an empty list; every entry is
    stripped and holds neither a comma nor a newline. *)
Theorem specialties_are_trimmed_pieces (content persona_name : pystr) :
  match get_in (py "metadata") (py "specialties")
               (extract_metadata_from_persona content persona_name) with
  | Some (PList l) =>
      l <> []
      /\ Forall (fun s => strip s = s
                          /\ ~ List.In (ch ",") s /\ ~ List.In nl s) l
  | Some _ => False
  | None => True
  end.
Proof.
  rewrite extract_specialties.
  destruct (search specialties_flags specialties_re content) as [m|] eqn:Es;
    [|exact I].
  unfold search in Es.
  apply search_from_sound in Es as (t & Hg & Hok); [|reflexivity].
  unfold group1. rewrite Hg.
  assert (Hnl : ~ List.In nl t).
  { unfold specialties_re in Hok. apply group_ok_seq in Hok.
    inversion Hok as [? ? H1|? ? H1]; subst; [now apply group_ok_lits in H1|].
    inversion H1 as [? ? H2|? ? H2]; subst; [destruct H2|].
    inversion H2 as [? ? H3|? ? H3]; subst; [destruct H3|].
    inversion H3 as [? ? H4|? ? H4]; subst; [destruct H4|].
    inversion H4 as [? ? H5|? ? H5]; subst.
    - destruct H5 as [H5|[[]|[]]].
      apply lang_plus_chars with (p := any_match specialties_flags) in H5;
        [|intros u Hu; exact Hu].
      destruct H5 as [_ Hall]. intros Hin.
      rewrite Forall_forall in Hall. apply Hall in Hin.
      vm_compute in Hin. discriminate.
    - inversion H5 as [? ? H6|? ? H6]; subst; [destruct H6 | inversion H6]. }
  split.
  - intros E. apply map_eq_nil in E. now apply split_nonempty in E.
  - apply Forall_forall. intros s Hin.
    apply in_map_iff in Hin as (piece & Hs & Hin). subst s.
    split; [apply strip_idempotent|]. split.
    + intros Hc. apply strip_incl in Hc.
      now apply (split_pieces_without_sep _ _ _ Hin).
    + intros Hc. apply strip_incl in Hc. apply Hnl.
      eapply split_incl; [exact Hin | exact Hc].
Qed.

(* ------------------------------------------------------------------ *)
(** * A directory with nothing to move *)

(** X13. Scenario A for every directory: when PERSONA.md is a regular file,
    neither AI_START_HERE.md nor SKILL.md is a directory, and the
    directory holds no other regular file, the migration returns True;
    SKILL.md holds the assembled text, and everything beside the three
    files, references/ included, is as it was. *)
Theorem migration_with_nothing_to_move
        (yaml_dump : dict -> pystr) (plat : platform)
        (persona_dir : path) (persona_content : pystr) (w : world) :
  lookup (persona_dir // PERSONA_md) (tree w) = Some (File persona_content) ->
  node_is_dir (lookup (persona_dir // AI_START_HERE_md) (tree w)) = false ->
  node_is_dir (lookup (persona_dir // SKILL_md) (tree w)) = false ->
  additional_files_of persona_dir (tree w) = [] ->
  exists w',
    create_skill_md yaml_dump plat persona_dir w = (Return true, w')
    /\ lookup (persona_dir // SKILL_md) (tree w')
       = Some (File (skill_md_text yaml_dump persona_content
                       (ai_start_text
                          (lookup (persona_dir // AI_START_HERE_md) (tree w)))
                       (name persona_dir)))
    /\ lookup (persona_dir // PERSONA_md) (tree w') = None
    /\ lookup (persona_dir // AI_START_HERE_md) (tree w') = None
    /\ forall q, untouched_by q (persona_dir // SKILL_md) ->
                 untouched_by q (persona_dir // PERSONA_md) ->
                 untouched_by q (persona_dir // AI_START_HERE_md) ->
                 lookup q (tree w') = lookup q (tree w).
Proof.
  intros HP HA HS Hnone.
  assert (Hd : node_is_dir (lookup persona_dir (tree w)) = true)
    by (eapply lookup_child_parent_is_dir; exact HP).
  assert (Hmain : forall content,
             exists w',
               (move_additional_files plat persona_dir ;;
                delete_old_files persona_dir ;; ret true)
                 (World (update (persona_dir // SKILL_md)
                           (fun _ => Some (File content)) (tree w))
                        (stdout w ++ [MsgCreated])) = (Return true, w')
               /\ lookup (persona_dir // SKILL_md) (tree w')
                  = Some (File content)
               /\ lookup (persona_dir // PERSONA_md) (tree w') = None
               /\ lookup (persona_dir // AI_START_HERE_md) (tree w') = None
               /\ forall q, untouched_by q (persona_dir // SKILL_md) ->
                            untouched_by q (persona_dir // PERSONA_md) ->
                            untouched_by q (persona_dir // AI_START_HERE_md) ->
                            lookup q (tree w') = lookup q (tree w)).
  { intros content. set (W := World _ _).
    assert (HSW : lookup (persona_dir // SKILL_md) (tree W)
                  = Some (File content)).
    { unfold W. cbn [tree].
      rewrite lookup_update_same;
        [reflexivity | apply child_nonempty | now rewrite parent_child]. }
    assert (Hside : forall x, x <> SKILL_md ->
                              lookup (persona_dir // x) (tree W)
                              = lookup (persona_dir // x) (tree w)).
    { intros x Hx. unfold W. cbn [tree].
      apply lookup_update_sibling. intros E. apply Hx. now rewrite E. }
    assert (HnoneW : additional_files_of persona_dir (tree W) = []).
    { destruct (additional_files_of persona_dir (tree W)) as [|f fs] eqn:E;
        [reflexivity|].
      assert (Hf : List.In f (additional_files_of persona_dir (tree W)))
        by (rewrite E; now left).
      apply additional_files_of_spec in Hf as (x & -> & Hx & Hfile).
      rewrite Hside in Hfile
        by (apply (not_excluded_neq Hx); now left).
      destruct (lookup (persona_dir // x) (tree w)) as [[data|es]|] eqn:Ex;
        try discriminate.
      pose proof (additional_files_of_complete _ _ _ Ex Hx) as Hin.
      rewrite Hnone in Hin. destruct Hin. }
    destruct (@delete_old_files_run persona_dir W) as (w' & R & N1 & N2 & K).
    { rewrite Hside by py_neq. now rewrite HP. }
    { rewrite Hside by py_neq. exact HA. }
    exists w'. split; [|split; [|split; [|split]]]; auto.
    - erewrite bind_run_return
        by (rewrite move_additional_files_run, HnoneW;
            [reflexivity | eapply lookup_child_parent_is_dir; exact HSW]).
      erewrite bind_run_return by exact R. reflexivity.
    - rewrite K; [exact HSW | |]; apply untouched_sibling; py_neq.
    - intros q Q1 Q2 Q3. rewrite K by assumption.
      unfold W. cbn [tree]. apply Q1. }
  rewrite create_skill_md_run, HP.
  destruct (lookup (persona_dir // AI_START_HERE_md) (tree w)) as [[a|aes]|];
    destruct (lookup (persona_dir // SKILL_md) (tree w)) as [[s|ses]|];
    try discriminate; apply Hmain.
Qed.

Definition scenario_a_world : world :=
  World (Dir [(py "personas",
               Dir [(py "org",
                     Dir [(py "bob",
                           Dir [(py "PERSONA.md", File scenario_a);
                                (py "assets", Dir [])])])])]) [].

Lemma migration_with_nothing_to_move_witness :
  exists w',
    create_skill_md plain_dump Posix bob scenario_a_world = (Return true, w')
    /\ lookup (bob // SKILL_md) (tree w')
       = Some (File (skill_md_text plain_dump scenario_a
                       (ai_start_text
                          (lookup (bob // AI_START_HERE_md)
                                  (tree scenario_a_world)))
                       (name bob)))
    /\ lookup (bob // PERSONA_md) (tree w') = None
    /\ lookup (bob // AI_START_HERE_md) (tree w') = None
    /\ forall q, untouched_by q (bob // SKILL_md) ->
                 untouched_by q (bob // PERSONA_md) ->
                 untouched_by q (bob // AI_START_HERE_md) ->
                 lookup q (tree w') = lookup q (tree scenario_a_world).
Proof.
  apply (@migration_with_nothing_to_move plain_dump Posix bob scenario_a
           scenario_a_world);
    vm_compute; reflexivity.
Defined.

(* ------------------------------------------------------------------ *)
(** * The frontmatter that is written *)

(** The second and third stage leave SKILL.md as the first stage wrote
    it. *)
Lemma later_stages_keep_skill_md plat persona_dir w u w' :
  (move_additional_files plat persona_dir ;;
   delete_old_files persona_dir ;; ret true) w = (Return u, w') ->
  lookup (persona_dir // SKILL_md) (tree w')
  = lookup (persona_dir // SKILL_md) (tree w).
Proof.
  intros H.
  apply bind_return_inv in H as (u1 & w1 & Hmove & H).
  apply bind_return_inv in H as (u2 & w2 & Hdel & H).
  cbv [ret] in H. inversion H; subst. clear H.
  apply delete_old_files_inv in Hdel as (_ & _ & K).
  rewrite K by (apply untouched_sibling; py_neq).
  assert (Hk : keeps (persona_dir // SKILL_md)
                     (move_additional_files plat persona_dir)).
  { apply keeps_move_additional_files.
    - intros x Hx. apply untouched_sibling.
      apply (not_excluded_neq Hx). now left.
    - intros x. apply untouched_nephew. py_neq.
    - apply untouched_sibling. py_neq. }
  exact (@keeps_run _ _ _ _ _ _ Hk Hmove).
Qed.

(** C10. Whenever the migration of a directory returns True, the text
    it has written to SKILL.md is "---", the serialisation by
    [yaml.dump] of a record, "---", a blank line and the body, and that
    record, whatever the text of PERSONA.md holds, has the keys [name]
    (the directory name), [description] (a string, possibly empty),
    [license] = "Proprietary", [compatibility] = "Designed for Loom" and
    a nested [metadata] dictionary with [author] = "loom" and
    [version] = "1.0". *)
Theorem written_frontmatter_standard_fields
        (yaml_dump : dict -> pystr) (plat : platform)
        (persona_dir : path) (w w' : world) :
  create_skill_md yaml_dump plat persona_dir w = (Return true, w') ->
  exists persona_content ai_start_content md,
    lookup (persona_dir // PERSONA_md) (tree w) = Some (File persona_content)
    /\ md = skill_metadata persona_content (name persona_dir)
    /\ lookup (persona_dir // SKILL_md) (tree w')
       = Some (File (py "---" ++ [nl] ++ yaml_dump md ++ py "---" ++ [nl; nl]
                     ++ skill_body persona_content ai_start_content ++ [nl]))
    /\ dict_get (py "name") md = Some (PStr (name persona_dir))
    /\ (exists d, dict_get (py "description") md = Some (PStr d))
    /\ dict_get (py "license") md = Some (PStr (py "Proprietary"))
    /\ dict_get (py "compatibility") md = Some (PStr (py "Designed for Loom"))
    /\ (exists sub, dict_get (py "metadata") md = Some (PDict sub)
                    /\ dict_get (py "author") sub = Some (PStr (py "loom"))
                    /\ dict_get (py "version") sub = Some (PStr (py "1.0"))).
Proof.
  intros H. rewrite create_skill_md_run in H.
  destruct (lookup (persona_dir // PERSONA_md) (tree w)) as [[pc|pes]|] eqn:HP;
    try discriminate.
  assert (Hd : node_is_dir (lookup persona_dir (tree w)) = true)
    by (eapply lookup_child_parent_is_dir; exact HP).
  assert (Hmain : forall ai,
             (move_additional_files plat persona_dir ;;
              delete_old_files persona_dir ;; ret true)
               (World (update (persona_dir // SKILL_md)
                         (fun _ => Some (File (skill_md_text yaml_dump pc ai
                                                 (name persona_dir))))
                         (tree w))
                      (stdout w ++ [MsgCreated])) = (Return true, w') ->
             lookup (persona_dir // SKILL_md) (tree w')
             = Some (File (skill_md_text yaml_dump pc ai (name persona_dir)))).
  { intros ai Hrun. rewrite (later_stages_keep_skill_md _ _ _ Hrun).
    cbn [tree]. rewrite lookup_update_same;
      [reflexivity | apply child_nonempty | now rewrite parent_child]. }
  exists pc,
         (ai_start_text (lookup (persona_dir // AI_START_HERE_md) (tree w))),
         (skill_metadata pc (name persona_dir)).
  split; [reflexivity|]. split; [reflexivity|]. split.
  - destruct (lookup (persona_dir // AI_START_HERE_md) (tree w)) as [[a|aes]|];
      destruct (lookup (persona_dir // SKILL_md) (tree w)) as [[s|ses]|];
      try discriminate; now apply Hmain.
  - apply skill_metadata_standard_fields.
Qed.

Lemma written_frontmatter_standard_fields_witness :
  let w' := snd (create_skill_md plain_dump Posix bob demo_world) in
  exists persona_content ai_start_content md,
    lookup (bob // PERSONA_md) (tree demo_world) = Some (File persona_content)
    /\ md = skill_metadata persona_content (name bob)
    /\ lookup (bob // SKILL_md) (tree w')
       = Some (File (py "---" ++ [nl] ++ plain_dump md ++ py "---" ++ [nl; nl]
                     ++ skill_body persona_content ai_start_content ++ [nl]))
    /\ dict_get (py "name") md = Some (PStr (name bob))
    /\ (exists d, dict_get (py "description") md = Some (PStr d))
    /\ dict_get (py "license") md = Some (PStr (py "Proprietary"))
    /\ dict_get (py "compatibility") md = Some (PStr (py "Designed for Loom"))
    /\ (exists sub, dict_get (py "metadata") md = Some (PDict sub)
                    /\ dict_get (py "author") sub = Some (PStr (py "loom"))
                    /\ dict_get (py "version") sub = Some (PStr (py "1.0"))).
Proof.
  apply (written_frontmatter_standard_fields plain_dump Posix bob demo_world).
  vm_compute. reflexivity.
Defined.

(** The same with a PERSONA.md that yields no description: the key is
    written all the same, with the empty string. *)
Example written_frontmatter_empty_description :
  let w := World (Dir [(py "personas",
                        Dir [(py "org",
                              Dir [(py "bob",
                                    Dir [(py "PERSONA.md", File (py "#"))])])])])
                 [] in
  fst (create_skill_md plain_dump Posix bob w) = Return true
  /\ dict_get (py "description") (skill_metadata (py "#") (name bob))
     = Some (PStr []).
Proof. cbv zeta. split; vm_compute; reflexivity. Qed.
